(** * Playlist import of Quod Libet: [quodlibet/browsers/playlists/util.py]

    A shallow embedding of the M3U / PLS import pipeline ([parse_m3u],
    [parse_pls], [__attempt_add], [__create_playlist], [_af_for], [_dir_for])
    and of [confirm_remove_playlist_tracks_dialog_invoke], followed by the
    properties of the import specification that were checked against it. *)

From Stdlib Require Import Strings.Byte Strings.Ascii.
From stdpp Require Import base option list strings gmap pretty.

(** ** Python [bytes] *)

Definition bytes := list byte.

(** A [bytes] literal: [B "abc"] stands for Python's [b"abc"]. *)
Definition B (s : string) : bytes := String.list_byte_of_string s.

#[global] Instance byte_eq_decision : EqDecision byte := Byte.byte_eq_dec.

Module Bytes.

(** ASCII whitespace as [bytes.strip()] sees it: space, \t, \n, \r, \x0b, \f. *)
Definition is_space (b : byte) : bool :=
  match b with
  | x20 | x09 | x0a | x0d | x0b | x0c => true
  | _ => false
  end.

(** [bytes.lower()] on one byte: only ASCII 'A'..'Z' change. *)
Definition lower_byte (b : byte) : byte :=
  let n := Byte.to_N b in
  if ((65 <=? n) && (n <=? 90))%N
  then default b (Byte.of_N (n + 32)%N)
  else b.

Definition lower (l : bytes) : bytes := map lower_byte l.

Fixpoint lstrip (l : bytes) : bytes :=
  match l with
  | [] => []
  | b :: r => if is_space b then lstrip r else l
  end.

Definition rstrip (l : bytes) : bytes := rev (lstrip (rev l)).

Definition strip (l : bytes) : bytes := rstrip (lstrip l).

(** [l.startswith(p)] *)
Fixpoint startswith (l p : bytes) {struct p} : bool :=
  match p with
  | [] => true
  | a :: p' =>
      match l with
      | [] => false
      | b :: l' => if decide (a = b) then startswith l' p' else false
      end
  end.

(** [l.index(c)] for a one-byte needle; [None] stands for the
    [ValueError] Python raises when the needle does not occur. *)
Fixpoint index (l : bytes) (c : byte) : option nat :=
  match l with
  | [] => None
  | b :: r => if decide (b = c) then Some 0 else S <$> index r c
  end.

End Bytes.

(** ** Exceptions and the effect log *)

Inductive exn := ValueError.

Inductive result (A : Type) :=
| Ok (a : A)
| Raise (e : exn).
Arguments Ok {A} a.
Arguments Raise {A} e.

(** ** The platform: what the import code calls but does not define

    [senf], [os.path], [quodlibet.util.path], [quodlibet.formats] and
    [quodlibet.qltk.wlw] are defined elsewhere; their
    functions are the fields of this class.  A Python function that may
    raise [ValueError] returns [option]. *)

Class Platform := {
  (** senf's [fsnative]: a path in the platform's native string type. *)
  fsn : Type;
  fsn_eq_dec :: EqDecision fsn;
  fsn_countable :: Countable fsn;
  (** An [AudioFile]: always a truthy object (a non-empty dictionary of tags). *)
  Track : Type;
  (** [senf.bytes2fsn(data, 'utf-8')]; [None] when it raises [ValueError]. *)
  bytes2fsn : bytes → option fsn;
  (** [senf.text2fsn(u'')] *)
  text2fsn_empty : fsn;
  (** [senf.path2fsn] applied to the [name] attribute of a file object. *)
  path2fsn : string → fsn;
  (** [quodlibet.util.path.uri_is_valid] *)
  uri_is_valid : fsn → bool;
  (** [senf.uri2fsn]; [None] when it raises [ValueError]. *)
  uri2fsn : fsn → option fsn;
  os_path_join : fsn → fsn → fsn;
  os_path_realpath : fsn → fsn;
  os_path_dirname : fsn → fsn;
  (** [quodlibet.formats.MusicFile]: probes the file, [None] when it cannot
      be loaded. *)
  MusicFile : fsn → option Track;
  (** [quodlibet.formats.remote.RemoteFile] *)
  RemoteFile : fsn → Track;
  (** [quodlibet.qltk.wlw.WaitLoadWindow]: the progress window, built for a
      number of steps; [step] advances it and answers whether the user
      asked to stop. *)
  WaitLoadWindow : Type;
  WaitLoadWindow_new : nat → WaitLoadWindow;
  WaitLoadWindow_step : WaitLoadWindow → bool * WaitLoadWindow;
}.

Section Pipeline.

Context {platform : Platform}.

(** Modelled from the spec: the Library collaborator, "a lookup capability
    get_by_path(path) -> Track | absent", is a finite map from canonical
    path to track; as a Python container it is truthy when non-empty. *)
Definition Library := gmap fsn Track.

Definition Library_bool (library : Library) : bool :=
  negb (Nat.eqb (size library) 0).

(** What the import does to its collaborators, in order. *)
Inductive event :=
| EvLookup (path : fsn)   (* library.get_filename(path) *)
| EvProbe (path : fsn)    (* formats.MusicFile(path) *)
| EvRemote (uri : fsn)    (* formats.remote.RemoteFile(uri) *)
| EvShow                  (* win.show() *)
| EvStep                  (* win.step() *)
| EvDestroy.              (* win.destroy() *)

#[global] Instance event_eq_dec : EqDecision event.
Proof. solve_decision. Defined.

(** A computation returns or raises, and logs the calls it made. *)
Definition M (A : Type) : Type := result A * list event.

#[global] Instance M_ret : MRet M := λ A a, (Ok a, []).

#[global] Instance M_bind : MBind M := λ A B f m,
  match m with
  | (Ok a, l) => let '(r, l') := f a in (r, l ++ l')
  | (Raise e, l) => (Raise e, l)
  end.

Definition raise {A} (e : exn) : M A := (Raise e, []).

Definition tell (e : event) : M () := (Ok (), [e]).

(** ** The parsers' line loops *)

(** [__attempt_add(filename, filenames)]: appends to the list it is given. *)
Definition __attempt_add (filename : bytes) (filenames : list fsn) : list fsn :=
  match bytes2fsn filename with
  | Some f => filenames ++ [f]
  | None => filenames
  end.

(** The [for line in filelike] loop of [parse_m3u]. *)
Fixpoint m3u_lines (lines : list bytes) (filenames : list fsn) : list fsn :=
  match lines with
  | [] => filenames
  | line :: rest =>
      let line := Bytes.strip line in
      if Bytes.startswith line (B "#") then m3u_lines rest filenames
      else m3u_lines rest (__attempt_add line filenames)
  end.

(** The [for line in filelike] loop of [parse_pls]; [line.index(b"=")]
    raises [ValueError], which nothing catches. *)
Fixpoint pls_lines (lines : list bytes) (filenames : list fsn) : M (list fsn) :=
  match lines with
  | [] => mret filenames
  | line :: rest =>
      let line := Bytes.strip line in
      if negb (Bytes.startswith (Bytes.lower line) (B "file"))
      then pls_lines rest filenames
      else
        match Bytes.index line "="%byte with
        | None => raise ValueError
        | Some i =>
            let fn := Bytes.strip (drop (i + 1) line) in
            pls_lines rest (__attempt_add fn filenames)
        end
  end.

(** ** Track resolution *)

Definition library_get_filename (library : Library) (filename : fsn)
  : M (option Track) :=
  tell (EvLookup filename);; mret (library !! filename).

Definition formats_MusicFile (filename : fsn) : M (option Track) :=
  tell (EvProbe filename);; mret (MusicFile filename).

Definition formats_remote_RemoteFile (uri : fsn) : M Track :=
  tell (EvRemote uri);; mret (RemoteFile uri).

(** [_af_for(filename, library, pl_dir)]; [library] is [None] or a
    library object, and [if library:] asks for its truth value. *)
Definition _af_for (filename : fsn) (library : option Library) (pl_dir : fsn)
  : M (option Track) :=
  let full_path := os_path_join pl_dir filename in
  let filename := os_path_realpath full_path in
  af ← match library with
       | Some lib =>
           if Library_bool lib then library_get_filename lib filename
           else mret None
       | None => mret None
       end;
  match af with
  | None => formats_MusicFile filename
  | Some _ => mret af
  end.

(** ** Playlist assembly *)

(** Modelled from the spec: the Playlist, "an ordered sequence of Track,
    plus a human-readable name", created empty by
    [FileBackedPlaylist.new] and grown by [extend]. *)
Record Playlist := {
  pl_name : string;
  pl_library : option Library;
  pl_songs : list Track;
}.

Definition FileBackedPlaylist_new (name : string) (library : option Library)
  : Playlist :=
  {| pl_name := name; pl_library := library; pl_songs := [] |}.

Definition Playlist_extend (playlist : Playlist) (songs : list Track)
  : Playlist :=
  {| pl_name := pl_name playlist;
     pl_library := pl_library playlist;
     pl_songs := pl_songs playlist ++ songs |}.

(** The body of the [for i, filename in enumerate(files)] loop up to the
    call of [win.step()]: the value appended to [songs]. *)
Definition import_entry (filename : fsn) (library : option Library)
    (source_dir : fsn) : M (option Track) :=
  if negb (uri_is_valid filename) then
    _af_for filename library source_dir
  else
    match uri2fsn filename with
    | None => song ← formats_remote_RemoteFile filename; mret (Some song)
    | Some filename => _af_for filename library source_dir
    end.

(** The loop itself: [songs] and [win] are the objects it mutates. *)
Fixpoint import_files (files : list fsn) (library : option Library)
    (source_dir : fsn) (songs : list (option Track)) (win : WaitLoadWindow)
  : M (list (option Track) * WaitLoadWindow) :=
  match files with
  | [] => mret (songs, win)
  | filename :: rest =>
      song ← import_entry filename library source_dir;
      let songs := songs ++ [song] in
      tell EvStep;;
      let '(stop, win) := WaitLoadWindow_step win in
      if stop then mret (songs, win)
      else import_files rest library source_dir songs win
  end.

(** [list(filter(None, songs))]: tracks are truthy, [None] is not. *)
Definition filter_None (songs : list (option Track)) : list Track :=
  omap id songs.

Definition __create_playlist (name : string) (source_dir : fsn)
    (files : list fsn) (library : option Library) : M Playlist :=
  let playlist := FileBackedPlaylist_new name library in
  let songs := [] in
  let win := WaitLoadWindow_new (length files) in
  tell EvShow;;
  '(songs, win) ← import_files files library source_dir songs win;
  tell EvDestroy;;
  mret (Playlist_extend playlist (filter_None songs)).

(** ** The parsers *)

(** A file object opened in binary mode: its lines, and its [name]
    attribute when it has one. *)
Record filelike := {
  fl_name : option string;
  fl_lines : list bytes;
}.

Definition _dir_for (f : filelike) : fsn :=
  match fl_name f with
  | Some name => os_path_dirname (path2fsn name)
  | None => text2fsn_empty
  end.

Definition parse_m3u (f : filelike) (pl_name : string)
    (library : option Library) : M Playlist :=
  let filenames := m3u_lines (fl_lines f) [] in
  __create_playlist pl_name (_dir_for f) filenames library.

Definition parse_pls (f : filelike) (pl_name : string)
    (library : option Library) : M Playlist :=
  filenames ← pls_lines (fl_lines f) [];
  __create_playlist pl_name (_dir_for f) filenames library.

End Pipeline.

(** ** The confirmation prompt for removing tracks from a playlist *)

Section Confirm.

(** Songs are hashable objects called with a tag name; [Parent] is the
    parent widget.  [gettext] is [_], and [percent_format t title count]
    is [t % {'title': title, 'count': count}]. *)
Context {Song : Type} `{Countable Song} {Parent : Type}.
Variable song_call : Song → string → string.
Variable gettext : string → string.
Variable ngettext : string → string → nat → string.
Variable percent_format : string → string → nat → string.

(** The [Confirmer] class handed to the function: its constructor, the
    [run] method of its instances and its [RESPONSE_INVOKE] attribute. *)
Record Confirmer := {
  Dialog : Type;
  Response : Type;
  Response_eq_dec :: EqDecision Response;
  Confirmer_new : Parent → string → string → string → Dialog;
  Dialog_run : Dialog → Response;
  RESPONSE_INVOKE : Response;
}.

Inductive dialog_event :=
| EvConfirmer (parent : Parent) (title description ok_text : string)
| EvRun.

Definition dquote : string :=
  String (Ascii.Ascii false true false false false true false false) EmptyString.

Definition remove_track_singular : string :=
  "Remove track: " +:+ dquote +:+ "%(title)s" +:+ dquote +:+ " from playlist?".

Definition remove_tracks_plural : string :=
  "Remove %(count)d tracks from playlist?".

(** [a or b] on strings. *)
Definition str_or (a b : string) : string :=
  match a with
  | EmptyString => b
  | _ => a
  end.

(** [songs = set(songs)]; [next(iter(songs))] is the first element the
    set enumerates, and there is none exactly when [not songs]. *)
Definition confirm_remove_playlist_tracks_dialog_invoke
    (C : Confirmer) (parent : Parent) (songs : list Song)
  : bool * list dialog_event :=
  let songs : gset Song := list_to_set songs in
  match elements songs with
  | [] => (true, [])
  | song :: _ =>
      let count := size songs in
      let title :=
        percent_format
          (ngettext remove_track_singular remove_tracks_plural count)
          (str_or (song_call song "title") (song_call song "~basename"))
          count in
      let ok_text := gettext "Remove from Playlist" in
      let dialog := Confirmer_new C parent title "" ok_text in
      let prompt := Dialog_run C dialog in
      let response := bool_decide (prompt = RESPONSE_INVOKE C) in
      (response, [EvConfirmer parent title "" ok_text; EvRun])
  end.

End Confirm.

(** ** A concrete platform

    A POSIX-flavoured instance on which the import can be run: paths are
    strings, the working directory is [/], two music files exist, and the
    user presses "stop" at a chosen step of the progress window (or never).
    The path functions are those of [posixpath] restricted to paths without
    [.], [..] and symbolic links. *)

Module Sample.

(** A track probed from a file, a remote stream, and a track that a
    library already holds. *)
Inductive track :=
| File (path : string)
| Stream (uri : string)
| Known (path : string).

(** senf on POSIX: only an embedded NUL makes the conversion fail. *)
Definition decode (data : bytes) : option string :=
  if bool_decide (x00 ∈ data) then None
  else Some (String.string_of_list_byte data).

Definition is_uri (s : string) : bool :=
  String.prefix "file://" s || String.prefix "http://" s.

Definition uri_path (s : string) : option string :=
  if String.prefix "file://" s
  then Some (String.substring 7 (String.length s - 7) s)
  else None.

Definition ends_with_slash (s : string) : bool :=
  match String.get (String.length s - 1) s with
  | Some c => bool_decide (c = "/"%char)
  | None => false
  end.

Definition join (a b : string) : string :=
  if String.prefix "/" b then b
  else if bool_decide (a = "") then b
  else if ends_with_slash a then a +:+ b
  else a +:+ "/" +:+ b.

Definition realpath (p : string) : string :=
  if String.prefix "/" p then p else "/" +:+ p.

Fixpoint drop_name (r : list Ascii.ascii) : list Ascii.ascii :=
  match r with
  | [] => []
  | c :: r' => if bool_decide (c = "/"%char) then r else drop_name r'
  end.

Fixpoint drop_slashes (r : list Ascii.ascii) : list Ascii.ascii :=
  match r with
  | [] => []
  | c :: r' => if bool_decide (c = "/"%char) then drop_slashes r' else r
  end.

Definition dirname (p : string) : string :=
  let head := drop_name (rev (String.list_ascii_of_string p)) in
  match drop_slashes head with
  | [] => String.string_of_list_ascii (rev head)
  | stripped => String.string_of_list_ascii (rev stripped)
  end.

Definition on_disk : list string :=
  ["/music/song1.mp3"; "/music/song2.mp3"].

Definition probe (p : string) : option track :=
  if bool_decide (p ∈ on_disk) then Some (File p) else None.

Record window := { total : nat; current : nat }.

Definition step (stop_at : option nat) (w : window) : bool * window :=
  let w' := {| total := total w; current := S (current w) |} in
  (bool_decide (stop_at = Some (current w')), w').

Definition platform (stop_at : option nat) : Platform := {|
  fsn := string;
  Track := track;
  bytes2fsn := decode;
  text2fsn_empty := "";
  path2fsn := id;
  uri_is_valid := is_uri;
  uri2fsn := uri_path;
  os_path_join := join;
  os_path_realpath := realpath;
  os_path_dirname := dirname;
  MusicFile := probe;
  RemoteFile := Stream;
  WaitLoadWindow := window;
  WaitLoadWindow_new := λ n, {| total := n; current := 0 |};
  WaitLoadWindow_step := step stop_at;
|}.

(** The platform on which the user never presses "stop", and the one
    on which "stop" is the answer to the second step. *)
Definition uncancelled : Platform := platform None.
Definition stopped_at_second : Platform := platform (Some 2).

(** A library that knows the first of the two files. *)
Definition library : gmap string track :=
  {[ "/music/song1.mp3" := Known "/music/song1.mp3" ]}.

(** A confirmation prompt whose user always confirms; songs are their
    titles. *)
Definition confirmer : Confirmer (Parent := ()) := {|
  Dialog := string;
  Response := bool;
  Confirmer_new := λ _ title _ _, title;
  Dialog_run := λ _, true;
  RESPONSE_INVOKE := true;
|}.

Definition song_call (song tag : string) : string :=
  if bool_decide (tag = "title") then song else "".

(** The playlist file of the specification's example: a comment, a file
    on disk, a missing file and a remote stream. *)
Definition example_m3u : filelike := {|
  fl_name := Some "/music/list.m3u";
  fl_lines := [B "#comment" ++ [x0a]; B "song1.mp3" ++ [x0a];
               B "missing.mp3" ++ [x0a];
               B "http://stream.example/x.mp3" ++ [x0a]];
|}.

End Sample.

(** ** Vocabulary of the specification *)

Section Vocabulary.

Context {platform : Platform}.

(** "Its trimmed content has the case-insensitive prefix [file]". *)
Definition is_file_line (line : bytes) : Prop :=
  ∃ p rest, Bytes.strip line = p ++ rest ∧ Bytes.lower p = B "file".

(** "Everything after the first [c]" of a line that has one. *)
Definition after_first (c : byte) (line post : bytes) : Prop :=
  ∃ pre, line = pre ++ c :: post ∧ c ∉ pre.

(** The M3U candidate test as the claim words it: non-empty and not a
    comment, after stripping. *)
Definition m3u_candidate_nonempty (line : bytes) : bool :=
  let line := Bytes.strip line in
  negb (bool_decide (line = [])) && negb (Bytes.startswith line (B "#")).

(** The M3U candidate test without the emptiness condition. *)
Definition m3u_candidate (line : bytes) : bool :=
  negb (Bytes.startswith (Bytes.strip line) (B "#")).

(** The raw entries of the lines a test selects, decoded one by one, the
    undecodable ones dropped. *)
Definition m3u_entries (candidate : bytes → bool) (lines : list bytes)
  : list fsn :=
  omap bytes2fsn (Bytes.strip <$> filter (λ l, candidate l = true) lines).

(** What one entry of the file list resolves to, and the calls made for it. *)
Definition entry_song (library : option Library) (source_dir filename : fsn)
  : option Track :=
  match (import_entry filename library source_dir).1 with
  | Ok song => song
  | Raise _ => None
  end.

Definition entry_calls (library : option Library) (source_dir filename : fsn)
  : list event :=
  (import_entry filename library source_dir).2.

(** The calls made for the entries the loop handles: those of each
    entry, then one [win.step()]. *)
Definition loop_calls (library : option Library) (source_dir : fsn)
    (handled : list fsn) : list event :=
  concat ((λ f, entry_calls library source_dir f ++ [EvStep]) <$> handled).

(** The window after [n] calls of [step], and the answer of call [S n]. *)
Fixpoint win_after (n : nat) (win : WaitLoadWindow) : WaitLoadWindow :=
  match n with
  | 0 => win
  | S n => win_after n (WaitLoadWindow_step win).2
  end.

Definition stop_answer (win : WaitLoadWindow) (n : nat) : bool :=
  (WaitLoadWindow_step (win_after n win)).1.

(** How many of [m] entries the loop handles before it ends. *)
Fixpoint processed (m : nat) (win : WaitLoadWindow) : nat :=
  match m with
  | 0 => 0
  | S m =>
      let '(stop, win) := WaitLoadWindow_step win in
      if stop then 1 else S (processed m win)
  end.

Definition ticks (log : list event) : nat :=
  length (filter (λ e, e = EvStep) log).

Definition is_library_call (e : event) : Prop :=
  match e with
  | EvLookup _ => True
  | _ => False
  end.

Definition is_probe (e : event) : Prop :=
  match e with
  | EvProbe _ => True
  | _ => False
  end.

End Vocabulary.

(** ** More vocabulary for the parsers and the assembly *)

(** The candidate test of [parse_pls], as a function of the line. *)
Definition pls_candidate (line : bytes) : bool :=
  Bytes.startswith (Bytes.lower (Bytes.strip line)) (B "file").

(** What follows the first [c] of [l]; nothing when [c] does not occur. *)
Fixpoint after_byte (c : byte) (l : bytes) : bytes :=
  match l with
  | [] => []
  | b :: r => if decide (b = c) then r else after_byte c r
  end.

Section MoreVocabulary.

Context {platform : Platform}.

(** The entries of a PLS stream: of each candidate line what follows its
    first [=], trimmed, decoded, the undecodable ones dropped. *)
Definition pls_entries (lines : list bytes) : list fsn :=
  omap bytes2fsn
    ((λ l, Bytes.strip (after_byte "="%byte l))
       <$> filter (λ l, pls_candidate l = true) lines).

(** The path an entry stands for: the entry itself when it is no URI, the
    path of a URI that has one, nothing for the other URIs. *)
Definition entry_path (filename : fsn) : option fsn :=
  if uri_is_valid filename then uri2fsn filename else Some filename.

(** Whether a byte string is made of whitespace only. *)
Definition is_blank (ws : bytes) : Prop :=
  ∀ b, b ∈ ws → Bytes.is_space b = true.

End MoreVocabulary.

(** * Showing files in the file manager: [quodlibet/qltk/showfiles.py] *)

Module ShowFiles.

(** [BrowseError] is the module's own exception; [DBusException] is what
    dbus calls raise; [OSError] is Python 3's [EnvironmentError] and
    [WindowsError]. *)
Inductive error := BrowseError | AssertionError | DBusException | OSError.

#[global] Instance error_eq_dec : EqDecision error.
Proof. solve_decision. Defined.

Inductive answer (A : Type) :=
| Return (a : A)
| Throw (e : error).
Arguments Return {A} a.
Arguments Throw {A} e.

(** An element of an argument vector: a literal word or a path. *)
Inductive arg (path : Type) :=
| Word (s : string)
| Path (p : path).
Arguments Word {path} s.
Arguments Path {path} p.

#[global] Instance arg_eq_dec {path} `{EqDecision path} : EqDecision (arg path).
Proof. solve_decision. Defined.

(** The D-Bus methods of the two file manager interfaces. *)
Inductive method (path : Type) :=
| ShowFolders (uris : list string) (startup_id : string)
| ShowItems (uris : list string) (startup_id : string)
| DisplayFolder (uri display startup_id : string)
| DisplayFolderAndSelect (uri : string) (item_name : path)
    (display startup_id : string).
Arguments ShowFolders {path} uris startup_id.
Arguments ShowItems {path} uris startup_id.
Arguments DisplayFolder {path} uri display startup_id.
Arguments DisplayFolderAndSelect {path} uri item_name display startup_id.

(** The calls that leave the program, as they are logged. *)
Inductive call (path : Type) :=
| CallSessionBus
| CallGetObject (name object_path : string)
| CallMethod (iface : string) (m : method path)
| CallSubprocess (argv : list (arg path))
| CallSelectItems (dirname : path) (items : list path).
Arguments CallSessionBus {path}.
Arguments CallGetObject {path} name object_path.
Arguments CallMethod {path} iface m.
Arguments CallSubprocess {path} argv.
Arguments CallSelectItems {path} dirname items.

(** The desktop the functions run on.  A call that leaves the program
    answers from the state of the world and changes it; [None] stands for
    the exception of its kind ([DBusException] for dbus, [OSError] for
    [subprocess.call] and [open_folder_and_select_items]).  The last line
    of [_show_files_finder], the body of its [except] clause, is not part
    of the source text; [finder_except] is whatever it does. *)
Class Desktop := {
  path : Type;
  path_eq_dec :: EqDecision path;
  World : Type;
  (** [quodlibet.util.is_windows()], [is_osx()] *)
  is_windows : bool;
  is_osx : bool;
  (** whether [import dbus] succeeded *)
  dbus : bool;
  (** [os.path.abspath], [os.path.basename], [os.path.join] *)
  path_abspath : path → path;
  path_basename : path → path;
  path_join : path → path → path;
  (** [senf.fsn2uri] *)
  fsn2uri : path → string;
  (** [type(app.window).__name__] and [Gtk.get_current_event_time()] *)
  app_window_type_name : string;
  Gtk_get_current_event_time : World → N;
  Bus : Type;
  BusObject : Type;
  dbus_SessionBus : World → option Bus * World;
  Bus_get_object : Bus → string → string → World → option BusObject * World;
  Interface_call : BusObject → string → method path → World → option () * World;
  subprocess_call : list (arg path) → World → option Z * World;
  open_folder_and_select_items :
    path → list path → World → option () * World;
  finder_except : World → answer () * World * list (call path);
}.

Section Backends.

Context {desktop : Desktop}.

(** A computation runs in a world, returns or throws, and logs the calls
    that left the program. *)
Definition D (A : Type) : Type := World → answer A * World * list (call path).

#[global] Instance D_ret : MRet D := λ A a w, (Return a, w, []).

#[global] Instance D_bind : MBind D := λ A B f m w,
  match m w with
  | (Return a, w', l) => let '(r, w'', l') := f a w' in (r, w'', l ++ l')
  | (Throw e, w', l) => (Throw e, w', l)
  end.

Definition throw {A} (e : error) : D A := λ w, (Throw e, w, []).

(** A call that leaves the program: logged, and [None] throws [exc]. *)
Definition external {A} (c : call path) (exc : error)
    (f : World → option A * World) : D A := λ w,
  match f w with
  | (Some a, w') => (Return a, w', [c])
  | (None, w') => (Throw exc, w', [c])
  end.

(** [try: body  except caught: handler] *)
Definition try_except {A} (caught : error) (body handler : D A) : D A := λ w,
  match body w with
  | (Throw e, w', l) =>
      if decide (e = caught)
      then let '(r, w'', l') := handler w' in (r, w'', l ++ l')
      else (Throw e, w', l)
  | r => r
  end.

Definition _get_startup_id : D string := λ w,
  (Return (app_window_type_name +:+ "_TIME"
           +:+ pretty (Gtk_get_current_event_time w)), w, []).

Definition _show_files_fdo (dirname : path) (entries : list path) : D () :=
  let FDO_PATH := "/org/freedesktop/FileManager1" in
  let FDO_NAME := "org.freedesktop.FileManager1" in
  let FDO_IFACE := "org.freedesktop.FileManager1" in
  if negb dbus then throw BrowseError
  else
    try_except DBusException
      (bus ← external CallSessionBus DBusException dbus_SessionBus;
       bus_object ← external (CallGetObject FDO_NAME FDO_PATH) DBusException
                      (Bus_get_object bus FDO_NAME FDO_PATH);
       match entries with
       | [] =>
           startup_id ← _get_startup_id;
           let m := ShowFolders [fsn2uri dirname] startup_id in
           external (CallMethod FDO_IFACE m) DBusException
             (Interface_call bus_object FDO_IFACE m)
       | first :: _ =>
           let item_uri := fsn2uri (path_join dirname first) in
           startup_id ← _get_startup_id;
           let m := ShowItems [item_uri] startup_id in
           external (CallMethod FDO_IFACE m) DBusException
             (Interface_call bus_object FDO_IFACE m)
       end)
      (throw BrowseError).

Definition _show_files_thunar (dirname : path) (entries : list path) : D () :=
  let XFCE_PATH := "/org/xfce/FileManager" in
  let XFCE_NAME := "org.xfce.FileManager" in
  let XFCE_IFACE := "org.xfce.FileManager" in
  if negb dbus then throw BrowseError
  else
    try_except DBusException
      (bus ← external CallSessionBus DBusException dbus_SessionBus;
       bus_object ← external (CallGetObject XFCE_NAME XFCE_PATH) DBusException
                      (Bus_get_object bus XFCE_NAME XFCE_PATH);
       match entries with
       | [] =>
           startup_id ← _get_startup_id;
           let m := DisplayFolder (fsn2uri dirname) "" startup_id in
           external (CallMethod XFCE_IFACE m) DBusException
             (Interface_call bus_object XFCE_IFACE m)
       | first :: _ =>
           let item_name := path_join dirname first in
           startup_id ← _get_startup_id;
           let m := DisplayFolderAndSelect (fsn2uri dirname) item_name ""
                      startup_id in
           external (CallMethod XFCE_IFACE m) DBusException
             (Interface_call bus_object XFCE_IFACE m)
       end)
      (throw BrowseError).

(** [if subprocess.call(argv) != 0: raise EnvironmentError(...)] *)
Definition call_checked (argv : list (arg path)) : D () :=
  status ← external (CallSubprocess argv) OSError (subprocess_call argv);
  if bool_decide (status ≠ 0%Z) then throw OSError else mret ().

Definition _show_files_gnome_open (dirname : path) (args : list path) : D () :=
  try_except OSError
    (call_checked [Word "gnome-open"; Path dirname])
    (throw BrowseError).

Definition _show_files_xdg_open (dirname : path) (args : list path) : D () :=
  try_except OSError
    (call_checked [Word "xdg-open"; Path dirname])
    (throw BrowseError).

Definition _show_files_win32 (dirname : path) (entries : list path) : D () :=
  if negb is_windows then throw BrowseError
  else
    match entries with
    | [] =>
        try_except OSError
          (call_checked [Word "explorer"; Path dirname])
          (throw BrowseError)
    | _ :: _ =>
        try_except OSError
          (external (CallSelectItems dirname []) OSError
             (open_folder_and_select_items dirname []))
          (throw BrowseError)
    end.

Definition _show_files_finder (dirname : path) (args : list path) : D () :=
  if negb is_osx then throw BrowseError
  else
    try_except OSError
      (call_checked [Word "open"; Word "-R"; Path dirname])
      finder_except.

(** The [for impl in implementations] loop of [show_files]. *)
Fixpoint try_implementations (implementations : list (path → list path → D ()))
    (dirname : path) (entries : list path) : D bool :=
  match implementations with
  | [] => mret false
  | impl :: rest => λ w,
      match impl dirname entries w with
      | (Return _, w', l) => (Return true, w', l)
      | (Throw BrowseError, w', l) =>
          let '(r, w'', l') := try_implementations rest dirname entries w' in
          (r, w'', l ++ l')
      | (Throw e, w', l) => (Throw e, w', l)
      end
  end.

(** [show_files(dirname, entries)]; that the arguments are [fsnative] is
    their type, the other half of the assertion is checked. *)
Definition show_files (dirname : path) (entries : list path) : D bool :=
  if negb (forallb (λ e, bool_decide (path_basename e = e)) entries)
  then throw AssertionError
  else
    let dirname := path_abspath dirname in
    let implementations :=
      if is_windows then [_show_files_win32]
      else if is_osx then [_show_files_finder]
      else [_show_files_fdo; _show_files_thunar;
            _show_files_xdg_open; _show_files_gnome_open] in
    try_implementations implementations dirname entries.

(** A back end settles when it returns or raises [BrowseError], and
    nothing else. *)
Definition settles (m : D ()) : Prop :=
  ∀ w, ∃ w' l, m w = (Return (), w', l) ∨ m w = (Throw BrowseError, w', l).

(** What a logged call may mention when the directory shown is [dirname]
    and the entries are [entries]: the directory itself, and of the entries
    the first one at most. *)
Definition call_about (dirname : path) (entries : list path)
    (c : call path) : Prop :=
  match c with
  | CallSessionBus | CallGetObject _ _ => True
  | CallMethod _ (ShowFolders uris _) =>
      entries = [] ∧ uris = [fsn2uri dirname]
  | CallMethod _ (ShowItems uris _) =>
      ∃ first, head entries = Some first
               ∧ uris = [fsn2uri (path_join dirname first)]
  | CallMethod _ (DisplayFolder uri _ _) =>
      entries = [] ∧ uri = fsn2uri dirname
  | CallMethod _ (DisplayFolderAndSelect uri item_name _ _) =>
      uri = fsn2uri dirname
      ∧ ∃ first, head entries = Some first
                 ∧ item_name = path_join dirname first
  | CallSubprocess argv => ∀ p, Path p ∈ argv → p = dirname
  | CallSelectItems d items => d = dirname ∧ items = []
  end.

(** A back end whose every call is such a call. *)
Definition only_about (dirname : path) (entries : list path)
    (m : D ()) : Prop :=
  ∀ w r w' l, m w = (r, w', l) → Forall (call_about dirname entries) l.

(** The entries [show_files] accepts: bare names. *)
Definition bare_names (entries : list path) : Prop :=
  Forall (λ e, path_basename e = e) entries.

End Backends.

(** A Linux desktop without dbus, for running the functions: paths are
    strings relative to [/], and the exit statuses of [xdg-open] and
    [gnome-open] are given. *)
Definition linux_without_dbus (xdg gnome : Z) : Desktop := {|
  path := string;
  World := nat;
  is_windows := false;
  is_osx := false;
  dbus := false;
  path_abspath := λ p, if String.prefix "/" p then p else "/" +:+ p;
  path_basename := λ p, if bool_decide (p = "a/b") then "b" else p;
  path_join := λ a b, a +:+ "/" +:+ b;
  fsn2uri := λ p, "file://" +:+ p;
  app_window_type_name := "QuodLibetWindow";
  Gtk_get_current_event_time := λ w, N.of_nat w;
  Bus := ();
  BusObject := ();
  dbus_SessionBus := λ w, (None, S w);
  Bus_get_object := λ _ _ _ w, (None, S w);
  Interface_call := λ _ _ _ w, (None, S w);
  subprocess_call := λ argv w,
    (Some (if bool_decide (argv = [Word "xdg-open"; Path "/music"])
           then xdg else gnome), S w);
  open_folder_and_select_items := λ _ _ w, (None, S w);
  finder_except := λ w, (Throw BrowseError, w, []);
|}.

(** A Windows desktop on which the shell call succeeds. *)
Definition windows : Desktop := {|
  path := string;
  World := nat;
  is_windows := true;
  is_osx := false;
  dbus := false;
  path_abspath := λ p, p;
  path_basename := λ p, p;
  path_join := λ a b, a +:+ "\" +:+ b;
  fsn2uri := λ p, "file:///" +:+ p;
  app_window_type_name := "QuodLibetWindow";
  Gtk_get_current_event_time := λ w, N.of_nat w;
  Bus := ();
  BusObject := ();
  dbus_SessionBus := λ w, (None, S w);
  Bus_get_object := λ _ _ _ w, (None, S w);
  Interface_call := λ _ _ _ w, (None, S w);
  subprocess_call := λ _ w, (Some 0%Z, S w);
  open_folder_and_select_items := λ _ _ w, (Some (), S w);
  finder_except := λ w, (Throw BrowseError, w, []);
|}.

End ShowFiles.

(** * Properties *)

(** ** Facts about [bytes] methods *)

Section BytesFacts.

Import Bytes.

Lemma lstrip_idemp l : lstrip (lstrip l) = lstrip l.
Proof.
  induction l as [|b r IH]; [done|]. simpl.
  destruct (is_space b) eqn:Hb; [done|]. simpl. by rewrite Hb.
Qed.

Lemma lstrip_app_nonspace pre c post :
  is_space c = false → lstrip (pre ++ c :: post) = lstrip pre ++ c :: post.
Proof.
  intros Hc. induction pre as [|b r IH]; simpl.
  - by rewrite Hc.
  - by destruct (is_space b).
Qed.

Lemma lstrip_snoc l b :
  lstrip (l ++ [b]) =
    match lstrip l with
    | [] => if is_space b then [] else [b]
    | _ => lstrip l ++ [b]
    end.
Proof.
  induction l as [|a r IH]; simpl; [done|].
  by destruct (is_space a).
Qed.

Lemma rstrip_cons b r :
  rstrip (b :: r) =
    match rstrip r with
    | [] => if is_space b then [] else [b]
    | _ => b :: rstrip r
    end.
Proof.
  unfold rstrip. simpl. rewrite lstrip_snoc.
  destruct (lstrip (rev r)) as [|x t] eqn:E; simpl.
  - by destruct (is_space b).
  - rewrite rev_app_distr. simpl.
    destruct (rev t ++ [x]) eqn:E'; [by destruct (rev t)|done].
Qed.

Lemma rstrip_idemp l : rstrip (rstrip l) = rstrip l.
Proof. unfold rstrip. by rewrite rev_involutive, lstrip_idemp. Qed.

Lemma rstrip_app_nonspace pre c post :
  is_space c = false → rstrip (pre ++ c :: post) = pre ++ c :: rstrip post.
Proof.
  intros Hc. unfold rstrip. rewrite rev_app_distr. simpl.
  rewrite <- app_assoc. simpl. rewrite lstrip_app_nonspace by done.
  rewrite rev_app_distr. simpl. rewrite rev_involutive.
  by rewrite <- app_assoc.
Qed.

Lemma lstrip_rstrip l : lstrip (rstrip l) = rstrip (lstrip l).
Proof.
  induction l as [|b r IH]; [done|].
  rewrite rstrip_cons. simpl lstrip at 2.
  destruct (is_space b) eqn:Hb.
  - rewrite <- IH. destruct (rstrip r) eqn:E; [done|].
    simpl. by rewrite Hb.
  - rewrite rstrip_cons.
    destruct (rstrip r); simpl; by rewrite Hb.
Qed.

Lemma strip_rstrip l : strip (rstrip l) = strip l.
Proof. unfold strip. by rewrite lstrip_rstrip, rstrip_idemp. Qed.

Lemma strip_around pre c post :
  is_space c = false →
  strip (pre ++ c :: post) = lstrip pre ++ c :: rstrip post.
Proof.
  intros Hc. unfold strip.
  by rewrite lstrip_app_nonspace, rstrip_app_nonspace.
Qed.

Lemma lstrip_suffix l : ∃ ws, l = ws ++ lstrip l.
Proof.
  induction l as [|b r [ws IH]]; [by exists []|]. simpl.
  destruct (is_space b); [|by exists []].
  exists (b :: ws). simpl. by rewrite <- IH.
Qed.

Lemma not_in_lstrip (c : byte) l : c ∉ l → c ∉ lstrip l.
Proof.
  intros Hc Hin. apply Hc. destruct (lstrip_suffix l) as [ws ->].
  apply elem_of_app. by right.
Qed.

Lemma index_first (c : byte) pre post :
  c ∉ pre → index (pre ++ c :: post) c = Some (length pre).
Proof.
  induction pre as [|b r IH]; simpl; intros Hc.
  - by rewrite decide_True.
  - rewrite decide_False by (intros ->; apply Hc; left).
    rewrite IH; [done|]. intros ?. apply Hc. by right.
Qed.

Lemma index_None (c : byte) l : index l c = None ↔ c ∉ l.
Proof.
  induction l as [|b r IH]; simpl.
  - split; [intros _; apply not_elem_of_nil|done].
  - destruct (decide (b = c)) as [->|Hne].
    + split; [done|]. intros Hc. exfalso. apply Hc. left.
    + rewrite not_elem_of_cons. destruct (index r c) eqn:E; simpl.
      * split; [done|]. intros [_ Hc]. by apply IH in Hc.
      * split; [|done]. intros _. split; [congruence|]. by apply IH.
Qed.

Lemma startswith_spec l p : startswith l p = true ↔ ∃ r, l = p ++ r.
Proof.
  revert l. induction p as [|a p IH]; intros l; simpl.
  - split; [by exists l|done].
  - destruct l as [|b l].
    + split; [done|]. by intros [r Hr].
    + destruct (decide (a = b)) as [->|Hne].
      * rewrite IH. split; intros [r Hr]; exists r; congruence.
      * split; [done|]. intros [r Hr]. congruence.
Qed.

Lemma startswith_file line :
  startswith (lower (strip line)) (B "file") = true ↔ is_file_line line.
Proof.
  rewrite startswith_spec. unfold is_file_line, lower. split.
  - intros [r Hr].
    exists (take 4 (strip line)), (drop 4 (strip line)).
    split; [by rewrite take_drop|].
    apply (f_equal (take 4)) in Hr. by rewrite firstn_map in Hr.
  - intros (p & rest & Hs & Hp). exists (map lower_byte rest).
    by rewrite Hs, map_app, Hp.
Qed.

End BytesFacts.

(** ** The line loops of the two parsers *)

Section ParserFacts.

Context {platform : Platform}.
Import Bytes.

Lemma not_in_strip (c : byte) l : c ∉ l → c ∉ strip l.
Proof.
  intros Hc. unfold strip, rstrip.
  rewrite list_elem_of_In, <- in_rev, <- list_elem_of_In.
  apply not_in_lstrip.
  rewrite list_elem_of_In, <- in_rev, <- list_elem_of_In.
  by apply not_in_lstrip.
Qed.

Lemma m3u_lines_entries lines acc :
  m3u_lines lines acc = acc ++ m3u_entries m3u_candidate lines.
Proof.
  revert acc. induction lines as [|line rest IH]; intros acc.
  - unfold m3u_entries. simpl. by rewrite app_nil_r.
  - cbn [m3u_lines]. unfold m3u_entries in *. rewrite filter_cons.
    case_decide as Hd; unfold m3u_candidate in Hd;
      destruct (startswith (strip line) (B "#")); try done;
      rewrite IH; try done.
    rewrite fmap_cons. unfold __attempt_add. simpl.
    destruct (bytes2fsn (strip line)); [|done].
    by rewrite <- app_assoc.
Qed.

Lemma pls_lines_skip line rest acc :
  ¬ is_file_line line → pls_lines (line :: rest) acc = pls_lines rest acc.
Proof.
  rewrite <- startswith_file. intros Hn. cbn [pls_lines].
  by destruct (startswith (lower (strip line)) (B "file")).
Qed.

Lemma pls_lines_entry line post rest acc :
  is_file_line line → after_first "="%byte line post →
  pls_lines (line :: rest) acc =
    pls_lines rest (__attempt_add (strip post) acc).
Proof.
  rewrite <- startswith_file. intros Hf (pre & -> & Hpre).
  cbn [pls_lines]. rewrite Hf. cbn [negb].
  rewrite strip_around by done.
  rewrite index_first by (by apply not_in_lstrip).
  rewrite cons_middle, app_assoc.
  rewrite drop_app_length' by (rewrite length_app; simpl; lia).
  by rewrite strip_rstrip.
Qed.

Lemma pls_lines_raise line rest acc :
  is_file_line line → "="%byte ∉ line →
  pls_lines (line :: rest) acc = raise ValueError.
Proof.
  rewrite <- startswith_file. intros Hf Hn.
  cbn [pls_lines]. rewrite Hf. cbn [negb].
  apply not_in_strip in Hn. apply index_None in Hn. by rewrite Hn.
Qed.

End ParserFacts.

(** ** Track resolution and the assembly loop *)

Section AssemblyFacts.

Context {platform : Platform}.

Lemma Library_bool_lookup (lib : Library) p t :
  lib !! p = Some t → Library_bool lib = true.
Proof.
  intros Hp. unfold Library_bool, Library in *.
  destruct (size lib) eqn:Hz; [|done].
  apply map_size_empty_iff in Hz. subst lib.
  by rewrite lookup_empty in Hp.
Qed.

(** [_af_for], case by case. *)
Lemma af_for_cases filename library pl_dir :
  let p := os_path_realpath (os_path_join pl_dir filename) in
  _af_for filename library pl_dir =
    match library with
    | Some lib =>
        if Library_bool lib then
          match lib !! p with
          | Some t => (Ok (Some t), [EvLookup p])
          | None => (Ok (MusicFile p), [EvLookup p; EvProbe p])
          end
        else (Ok (MusicFile p), [EvProbe p])
    | None => (Ok (MusicFile p), [EvProbe p])
    end.
Proof.
  intros p. unfold _af_for. fold p.
  destruct library as [lib|]; [|done].
  destruct (Library_bool lib); [|done].
  unfold library_get_filename. simpl.
  by destruct (lib !! p).
Qed.

Lemma af_for_ok filename library pl_dir :
  ∃ song calls, _af_for filename library pl_dir = (Ok song, calls)
                ∧ EvStep ∉ calls.
Proof.
  rewrite af_for_cases.
  destruct library as [lib|]; [destruct (Library_bool lib);
    [destruct (lib !! _)|]|]; eexists _, _; (split; [done|]);
    rewrite !not_elem_of_cons; repeat split; try done;
    apply not_elem_of_nil.
Qed.

Lemma import_entry_unfold filename library source_dir :
  import_entry filename library source_dir =
    if uri_is_valid filename then
      match uri2fsn filename with
      | Some path => _af_for path library source_dir
      | None => (Ok (Some (RemoteFile filename)), [EvRemote filename])
      end
    else _af_for filename library source_dir.
Proof.
  unfold import_entry.
  destruct (uri_is_valid filename); [|done]. simpl.
  by destruct (uri2fsn filename).
Qed.

Lemma import_entry_ok filename library source_dir :
  import_entry filename library source_dir =
    (Ok (entry_song library source_dir filename),
     entry_calls library source_dir filename)
  ∧ EvStep ∉ entry_calls library source_dir filename.
Proof.
  unfold entry_song, entry_calls. rewrite import_entry_unfold.
  destruct (uri_is_valid filename).
  - destruct (uri2fsn filename) as [path|].
    + destruct (af_for_ok path library source_dir) as (s & c & -> & Hc).
      done.
    + split; [done|]. simpl. rewrite not_elem_of_cons.
      split; [done|apply not_elem_of_nil].
  - destruct (af_for_ok filename library source_dir) as (s & c & -> & Hc).
    done.
Qed.

Lemma import_files_run files library source_dir songs win :
  let k := processed (length files) win in
  import_files files library source_dir songs win =
    (Ok (songs ++ (entry_song library source_dir <$> take k files),
         win_after k win),
     loop_calls library source_dir (take k files)).
Proof.
  revert songs win.
  induction files as [|f rest IH]; intros songs win k.
  - simpl. by rewrite app_nil_r.
  - cbn [import_files].
    destruct (import_entry_ok f library source_dir) as [-> _].
    subst k. cbn [length processed].
    unfold mbind, M_bind, tell.
    destruct (WaitLoadWindow_step win) as [[] win'] eqn:E.
    + simpl. rewrite E. unfold loop_calls. simpl.
      by rewrite !app_nil_r.
    + rewrite IH. simpl. rewrite E. unfold loop_calls. simpl.
      by rewrite <- !app_assoc.
Qed.

Lemma filter_None_fmap {A} (f : A → option Track) (l : list A) :
  filter_None (f <$> l) = omap f l.
Proof.
  unfold filter_None. induction l as [|a l IH]; [done|]. csimpl.
  destruct (f a); csimpl; by rewrite IH.
Qed.

(** The whole of [__create_playlist], in closed form. *)
Lemma create_playlist_run name source_dir files library :
  let k := processed (length files) (WaitLoadWindow_new (length files)) in
  __create_playlist name source_dir files library =
    (Ok {| pl_name := name; pl_library := library;
           pl_songs := omap (entry_song library source_dir) (take k files) |},
     EvShow :: loop_calls library source_dir (take k files) ++ [EvDestroy]).
Proof.
  intros k. unfold __create_playlist.
  rewrite import_files_run. fold k.
  unfold mbind, M_bind, tell, mret, M_ret, Playlist_extend.
  by rewrite !app_nil_l, filter_None_fmap.
Qed.

End AssemblyFacts.

(** ** The progress window *)

Section ProgressFacts.

Context {platform : Platform}.

Lemma processed_le m win : processed m win ≤ m.
Proof.
  revert win. induction m as [|m IH]; intros win; simpl; [done|].
  destruct (WaitLoadWindow_step win) as [[] win']; [lia|].
  specialize (IH win'). lia.
Qed.

Lemma processed_no_stop m win :
  (∀ n, n < m → stop_answer win n = false) → processed m win = m.
Proof.
  revert win. induction m as [|m IH]; intros win Hno; simpl; [done|].
  pose proof (Hno 0 ltac:(lia)) as H0. unfold stop_answer in H0.
  simpl in H0.
  destruct (WaitLoadWindow_step win) as [stop win'] eqn:E.
  simpl in H0. subst stop. f_equal. apply IH. intros n Hn.
  specialize (Hno (S n) ltac:(lia)).
  unfold stop_answer in *. simpl in Hno. by rewrite E in Hno.
Qed.

Lemma processed_stop m win n :
  n < m → stop_answer win n = true →
  (∀ j, j < n → stop_answer win j = false) →
  processed m win = S n.
Proof.
  revert win n. induction m as [|m IH]; intros win n Hn Hstop Hbefore;
    [lia|].
  simpl. destruct (WaitLoadWindow_step win) as [stop win'] eqn:E.
  destruct n as [|n].
  - unfold stop_answer in Hstop. simpl in Hstop. rewrite E in Hstop.
    simpl in Hstop. by subst stop.
  - pose proof (Hbefore 0 ltac:(lia)) as H0.
    unfold stop_answer in H0. simpl in H0. rewrite E in H0.
    simpl in H0. subst stop. f_equal. apply IH; [lia| |].
    + unfold stop_answer in *. simpl in Hstop. by rewrite E in Hstop.
    + intros j Hj. specialize (Hbefore (S j) ltac:(lia)).
      unfold stop_answer in *. simpl in Hbefore. by rewrite E in Hbefore.
Qed.

Lemma ticks_app l1 l2 : ticks (l1 ++ l2) = ticks l1 + ticks l2.
Proof. unfold ticks. by rewrite filter_app, length_app. Qed.

Lemma ticks_none l : EvStep ∉ l → ticks l = 0.
Proof.
  unfold ticks. induction l as [|e l IH]; [done|].
  rewrite not_elem_of_cons. intros [Hne Hl].
  rewrite filter_cons. rewrite decide_False by done. by apply IH.
Qed.

Lemma ticks_loop_calls library source_dir handled :
  ticks (loop_calls library source_dir handled) = length handled.
Proof.
  unfold loop_calls. induction handled as [|f rest IH]; [done|].
  csimpl. rewrite !ticks_app, IH.
  destruct (import_entry_ok f library source_dir) as [_ Hc].
  by rewrite (ticks_none _ Hc).
Qed.

Lemma length_omap_filter {A B} (f : A → option B) (l : list A) :
  length (omap f l) = length (filter (λ a, is_Some (f a)) l).
Proof.
  induction l as [|a l IH]; [done|]. csimpl. rewrite filter_cons.
  destruct (f a) as [b|]; simpl; by rewrite IH.
Qed.

End ProgressFacts.

(** ** What the parsers do with each line *)

Section ParserClaims.

Context {platform : Platform}.
Import Bytes.

(** C1 (as the code has it): a PLS stream with a line [File1] that has no
    [=] does not yield a playlist.  [parse_pls] raises [ValueError] at that
    line, before any track is resolved, although the line after it is a
    well-formed entry. *)
Theorem parse_pls_aborts_without_equals
    (name : option string) (pl_name : string) (library : option Library) :
  parse_pls {| fl_name := name;
               fl_lines := [B "[playlist]" ++ [x0a]; B "File1" ++ [x0a];
                            B "File2=song2.mp3" ++ [x0a]] |}
            pl_name library
  = (Raise ValueError, []).
Proof. reflexivity. Qed.

(** C2 (amended): in an M3U stream the candidates are the lines that,
    once stripped, do not start with [#], the empty ones included; each is
    decoded on its own and dropped when it does not decode; the parse
    always returns a playlist, and when the progress window never answers
    "stop" its length is the number of candidates that decode and resolve
    to a track. *)
Theorem m3u_candidates_and_length
    (f : filelike) (pl_name : string) (library : option Library) :
  let files := m3u_entries m3u_candidate (fl_lines f) in
  (∀ n, n < length files →
        stop_answer (WaitLoadWindow_new (length files)) n = false) →
  m3u_lines (fl_lines f) [] = files
  ∧ ∃ playlist log,
      parse_m3u f pl_name library = (Ok playlist, log)
      ∧ length (pl_songs playlist) =
          length (filter (λ e, is_Some (entry_song library (_dir_for f) e))
                         files).
Proof.
  intros files Hno.
  assert (m3u_lines (fl_lines f) [] = files) as Hfiles
    by (by rewrite m3u_lines_entries).
  split; [done|]. unfold parse_m3u. rewrite Hfiles.
  rewrite create_playlist_run. eexists _, _. split; [done|]. simpl.
  rewrite (processed_no_stop _ _ Hno), firstn_all.
  apply length_omap_filter.
Qed.

(** C3: a PLS line whose trimmed content does not have the
    case-insensitive prefix [file] is passed over, whatever else it
    contains; a line that has the prefix is a candidate, and its raw entry
    is what follows the first [=] of the line, trimmed. *)
Theorem pls_candidates_and_values
    (line : bytes) (rest : list bytes) (filenames : list fsn) :
  (¬ is_file_line line →
     pls_lines (line :: rest) filenames = pls_lines rest filenames)
  ∧ (is_file_line line → ∀ post, after_first "="%byte line post →
     pls_lines (line :: rest) filenames =
       pls_lines rest (__attempt_add (strip post) filenames)).
Proof.
  split.
  - apply pls_lines_skip.
  - intros Hf post Hpost. by apply pls_lines_entry.
Qed.

End ParserClaims.

(** C2 (as stated) fails: an empty line is a candidate of [parse_m3u] (here
    it is decoded to the empty path and put in the file list), and a
    cancelled import returns fewer tracks than there are resolvable lines. *)
Lemma m3u_empty_line_is_a_candidate :
  m3u_lines (platform := Sample.platform None) [[x0a]] []
    ≠ m3u_entries m3u_candidate_nonempty [[x0a]]
  ∧ ∃ playlist log,
      parse_m3u (platform := Sample.platform (Some 1))
        {| fl_name := Some "/music/list.m3u";
           fl_lines := [B "song1.mp3" ++ [x0a]; B "song2.mp3" ++ [x0a]] |}
        "list" None = (Ok playlist, log)
      ∧ length (pl_songs playlist) = 1
      ∧ length (filter (λ e, is_Some (entry_song
                                        (platform := Sample.platform (Some 1))
                                        None "/music" e))
                  (m3u_entries m3u_candidate_nonempty
                     [B "song1.mp3" ++ [x0a]; B "song2.mp3" ++ [x0a]])) = 2.
Proof.
  split; [by vm_compute|].
  eexists _, _. split; [by vm_compute|]. split; [done|]. by vm_compute.
Qed.

#[local] Existing Instance Sample.uncancelled.

Lemma m3u_candidates_and_length_witness :
  let files := m3u_entries m3u_candidate (fl_lines Sample.example_m3u) in
  (∀ n, n < length files →
        stop_answer (WaitLoadWindow_new (length files)) n = false)
  ∧ ∃ playlist log,
      parse_m3u Sample.example_m3u "list" None = (Ok playlist, log)
      ∧ length (pl_songs playlist) = 2.
Proof.
  intros files.
  assert (∀ n, n < length files →
            stop_answer (WaitLoadWindow_new (length files)) n = false) as Hno.
  { intros n _. reflexivity. }
  split; [exact Hno|].
  destruct (m3u_candidates_and_length Sample.example_m3u "list" None Hno)
    as (_ & playlist & log & Hrun & Hlen).
  exists playlist, log. split; [exact Hrun|]. exact Hlen.
Defined.

Lemma pls_candidates_and_values_witness :
  is_file_line (B " File1= a.mp3" ++ [x0a])
  ∧ after_first "="%byte (B " File1= a.mp3" ++ [x0a]) (B " a.mp3" ++ [x0a])
  ∧ ¬ is_file_line (B "Title1=a" ++ [x0a])
  ∧ pls_lines [B "Title1=a" ++ [x0a]; B " File1= a.mp3" ++ [x0a]] []
    = (Ok ["a.mp3"], []).
Proof.
  assert (is_file_line (B " File1= a.mp3" ++ [x0a])) as Hf.
  { exists (B "File"), (B "1= a.mp3"). split; reflexivity. }
  assert (after_first "="%byte (B " File1= a.mp3" ++ [x0a])
            (B " a.mp3" ++ [x0a])) as Hpost.
  { exists (B " File1"). split; [reflexivity|compute_done]. }
  assert (¬ is_file_line (B "Title1=a" ++ [x0a])) as Hn.
  { rewrite <- startswith_file. vm_compute. discriminate. }
  split; [exact Hf|]. split; [exact Hpost|]. split; [exact Hn|].
  rewrite (proj1 (pls_candidates_and_values _ _ _) Hn).
  rewrite (proj2 (pls_candidates_and_values _ _ _) Hf _ Hpost).
  reflexivity.
Defined.

(** ** Resolution of one entry *)

Section ResolutionClaims.

Context {platform : Platform}.

Lemma Library_bool_false (lib : Library) p :
  Library_bool lib = false → lib !! p = None.
Proof.
  intros Hb. destruct (lib !! p) as [t|] eqn:E; [|done].
  apply Library_bool_lookup in E. congruence.
Qed.

(** The track [_af_for] returns depends on the canonical path alone. *)
Lemma af_for_song filename library pl_dir :
  let p := os_path_realpath (os_path_join pl_dir filename) in
  (_af_for filename library pl_dir).1 =
    Ok (match library ≫= (λ lib : Library, lib !! p) with
        | Some t => Some t
        | None => MusicFile p
        end).
Proof.
  intros p. rewrite af_for_cases. fold p.
  destruct library as [lib|]; [|done]. simpl.
  destruct (Library_bool lib) eqn:Hb.
  - by destruct (lib !! p).
  - by rewrite (Library_bool_false _ p Hb).
Qed.

Lemma af_for_calls filename library pl_dir e :
  let p := os_path_realpath (os_path_join pl_dir filename) in
  e ∈ (_af_for filename library pl_dir).2 → e = EvLookup p ∨ e = EvProbe p.
Proof.
  intros p. rewrite af_for_cases. fold p.
  destruct library as [lib|]; [destruct (Library_bool lib);
    [destruct (lib !! p)|]|]; simpl;
    rewrite ?elem_of_cons, elem_of_nil; tauto.
Qed.

(** C4: an entry that is not a valid URI goes to [_af_for] with the
    source directory, and every consultation made for it (library lookup,
    probe) is at the realpath of the join of the source directory and the
    entry; the track obtained is the one found at that path. *)
Theorem plain_entry_resolves_at_realpath_of_join
    (filename : fsn) (library : option Library) (source_dir : fsn) :
  uri_is_valid filename = false →
  let p := os_path_realpath (os_path_join source_dir filename) in
  import_entry filename library source_dir
    = _af_for filename library source_dir
  ∧ (∀ e, e ∈ entry_calls library source_dir filename →
          e = EvLookup p ∨ e = EvProbe p)
  ∧ entry_song library source_dir filename =
      match library ≫= (λ lib : Library, lib !! p) with
      | Some t => Some t
      | None => MusicFile p
      end.
Proof.
  intros Hv p.
  assert (import_entry filename library source_dir
          = _af_for filename library source_dir) as Heq
    by (by rewrite import_entry_unfold, Hv).
  split; [done|]. unfold entry_calls, entry_song. rewrite Heq. split.
  - intros e. apply af_for_calls.
  - by rewrite af_for_song.
Qed.

(** C5: an entry that is a valid URI but has no local path becomes a
    remote track built from the entry itself; neither the library nor the
    file probe is called for it, and when the loop handles the entry that
    track is in the playlist. *)
Theorem unconvertible_uri_becomes_remote_track
    (uri : fsn) (library : option Library) (source_dir : fsn) :
  uri_is_valid uri = true → uri2fsn uri = None →
  import_entry uri library source_dir
    = (Ok (Some (RemoteFile uri)), [EvRemote uri])
  ∧ (∀ e, e ∈ entry_calls library source_dir uri →
          ¬ is_library_call e ∧ ¬ is_probe e)
  ∧ ∀ name files,
      let k := processed (length files)
                 (WaitLoadWindow_new (length files)) in
      uri ∈ take k files →
      ∃ playlist log,
        __create_playlist name source_dir files library = (Ok playlist, log)
        ∧ RemoteFile uri ∈ pl_songs playlist.
Proof.
  intros Hv Hconv.
  assert (import_entry uri library source_dir
          = (Ok (Some (RemoteFile uri)), [EvRemote uri])) as Heq
    by (by rewrite import_entry_unfold, Hv, Hconv).
  split; [done|]. split.
  - unfold entry_calls. rewrite Heq. simpl. intros e He.
    apply list_elem_of_singleton in He. subst e. simpl. tauto.
  - intros name files k Hin. rewrite create_playlist_run.
    eexists _, _. split; [done|]. simpl. fold k.
    apply list_elem_of_omap. exists uri. split; [done|].
    unfold entry_song. by rewrite Heq.
Qed.

(** C6: for a local entry with canonical path [p], a library that has a
    track at [p] is asked once and its track is returned, nothing being
    probed; in every other case the file at [p] is probed, once, and the
    result of the probe is returned: absent when the probe fails. *)
Theorem local_path_track_resolution
    (filename : fsn) (library : option Library) (pl_dir : fsn) :
  let p := os_path_realpath (os_path_join pl_dir filename) in
  (∀ (lib : Library) t, library = Some lib → lib !! p = Some t →
     _af_for filename library pl_dir = (Ok (Some t), [EvLookup p]))
  ∧ ((∀ lib : Library, library = Some lib → lib !! p = None) →
     ∃ calls,
       _af_for filename library pl_dir = (Ok (MusicFile p), calls)
       ∧ (calls = [EvProbe p] ∨ calls = [EvLookup p; EvProbe p])).
Proof.
  intros p. split.
  - intros lib t -> Ht. rewrite af_for_cases. fold p.
    by rewrite (Library_bool_lookup _ _ _ Ht), Ht.
  - intros Hnone. rewrite af_for_cases. fold p.
    destruct library as [lib|]; [|eauto].
    rewrite (Hnone lib eq_refl). destruct (Library_bool lib); eauto.
Qed.

(** C9: an entry that is a URI with a local path [p] is resolved by
    [_af_for] at [p] with the same library and source directory, which is
    how the plain path [p] is resolved: both give the same track, the
    same calls and the same playlist. *)
Theorem file_uri_resolves_like_plain_path
    (uri p : fsn) (library : option Library) (source_dir : fsn) :
  uri_is_valid uri = true → uri2fsn uri = Some p →
  uri_is_valid p = false →
  import_entry uri library source_dir = _af_for p library source_dir
  ∧ import_entry uri library source_dir = import_entry p library source_dir
  ∧ entry_song library source_dir uri = entry_song library source_dir p
  ∧ ∀ name,
      __create_playlist name source_dir [uri] library
      = __create_playlist name source_dir [p] library.
Proof.
  intros Hv Hconv Hplain.
  assert (import_entry uri library source_dir
          = _af_for p library source_dir) as Huri
    by (by rewrite import_entry_unfold, Hv, Hconv).
  assert (import_entry p library source_dir
          = _af_for p library source_dir) as Hp
    by (by rewrite import_entry_unfold, Hplain).
  split; [done|]. split; [congruence|].
  assert (entry_song library source_dir uri
          = entry_song library source_dir p) as Hsong
    by (unfold entry_song; by rewrite Huri, Hp).
  split; [done|]. intros name. rewrite !create_playlist_run.
  cbn [length]. generalize (processed 1 (WaitLoadWindow_new 1)).
  intros [|k]; [done|].
  replace (take (S k) [uri]) with [uri] by (by destruct k).
  replace (take (S k) [p]) with [p] by (by destruct k).
  unfold loop_calls, entry_calls. csimpl. by rewrite Hsong, Huri, Hp.
Qed.

End ResolutionClaims.

(** ** The assembled playlist *)

Section AssemblyClaims.

Context {platform : Platform}.

Lemma filter_None_sublist (songs : list (option Track)) :
  Some <$> filter_None songs `sublist_of` songs.
Proof.
  unfold filter_None. induction songs as [|[t|] songs IH]; csimpl.
  - constructor.
  - by apply sublist_skip.
  - by apply sublist_cons.
Qed.

(** C7: the playlist holds the tracks of the list [songs] the loop built
    (one element, a track or [None], per entry it handled), with the
    [None] elements removed and nothing else changed: every track in it
    was resolved, every resolved one is in it, and they come in the order
    of their entries, which are an initial part of the file list. *)
Theorem playlist_has_no_null_and_keeps_order
    (name : string) (source_dir : fsn) (files : list fsn)
    (library : option Library) :
  let win := WaitLoadWindow_new (length files) in
  let k := processed (length files) win in
  let songs := entry_song library source_dir <$> take k files in
  ∃ playlist log,
    __create_playlist name source_dir files library = (Ok playlist, log)
    ∧ (import_files files library source_dir [] win).1
        = Ok (songs, win_after k win)
    ∧ pl_songs playlist = filter_None songs
    ∧ (∀ t, t ∈ pl_songs playlist ↔ Some t ∈ songs)
    ∧ Some <$> pl_songs playlist `sublist_of` songs
    ∧ pl_songs playlist = omap (entry_song library source_dir) (take k files)
    ∧ take k files `prefix_of` files.
Proof.
  intros win k songs. rewrite create_playlist_run, import_files_run.
  eexists _, _. split; [done|]. fold win k songs. cbn [fst pl_songs].
  assert (omap (entry_song library source_dir) (take k files)
          = filter_None songs) as Hs
    by (symmetry; apply filter_None_fmap).
  rewrite Hs. repeat split; try done.
  - unfold filter_None. rewrite list_elem_of_omap.
    intros (o & Ho & Hid). simpl in Hid. by subst o.
  - intros Hin. unfold filter_None. rewrite list_elem_of_omap.
    by exists (Some t).
  - apply filter_None_sublist.
  - apply prefix_take.
Qed.

(** C8: the log of an assembly is the calls of each handled entry each
    followed by one [win.step()], so there are as many ticks as handled
    entries, resolved or not; and when the answer to tick [S n] is the
    first "stop", exactly [S n] entries are handled, the assembly returns
    a playlist, and that playlist has at most [S n] tracks. *)
Theorem progress_ticks_and_cancellation
    (name : string) (source_dir : fsn) (files : list fsn)
    (library : option Library) :
  let win := WaitLoadWindow_new (length files) in
  let k := processed (length files) win in
  ∃ playlist log,
    __create_playlist name source_dir files library = (Ok playlist, log)
    ∧ log = EvShow :: loop_calls library source_dir (take k files)
              ++ [EvDestroy]
    ∧ ticks log = length (take k files)
    ∧ ∀ n, n < length files → stop_answer win n = true →
           (∀ j, j < n → stop_answer win j = false) →
           k = S n
           ∧ ticks log = S n
           ∧ pl_songs playlist
               = omap (entry_song library source_dir) (take (S n) files)
           ∧ length (pl_songs playlist) ≤ S n.
Proof.
  intros win k. rewrite create_playlist_run. fold win k.
  eexists _, _. split; [done|]. split; [done|].
  assert (ticks (EvShow :: loop_calls library source_dir (take k files)
                   ++ [EvDestroy]) = length (take k files)) as Hticks.
  { change (EvShow :: ?l) with ([EvShow] ++ l).
    rewrite !ticks_app, ticks_loop_calls.
    rewrite !ticks_none; [lia| |];
      rewrite not_elem_of_cons; (split; [done|apply not_elem_of_nil]). }
  split; [done|]. intros n Hn Hstop Hbefore.
  assert (k = S n) as Hk by (by apply processed_stop).
  split; [done|]. rewrite Hticks, Hk. cbn [pl_songs].
  split; [rewrite length_take; lia|]. split; [done|].
  rewrite length_omap_filter.
  etrans; [apply length_filter|]. rewrite length_take. lia.
Qed.

End AssemblyClaims.

(** ** The confirmation prompt *)

Section ConfirmClaims.

Context {Song : Type} `{Countable Song} {Parent : Type}.
Variable song_call : Song → string → string.
Variable gettext : string → string.
Variable ngettext : string → string → nat → string.
Variable percent_format : string → string → nat → string.

Local Abbreviation invoke :=
  (confirm_remove_playlist_tracks_dialog_invoke
     song_call gettext ngettext percent_format).

Lemma list_to_set_remove_dups_eq (songs : list Song) :
  list_to_set (C := gset Song) (remove_dups songs) = list_to_set songs.
Proof.
  apply set_eq. intros x.
  by rewrite !elem_of_list_to_set, elem_of_remove_dups.
Qed.

Lemma size_set_of_songs (songs : list Song) :
  size (list_to_set (C := gset Song) songs) = length (remove_dups songs).
Proof.
  rewrite <- list_to_set_remove_dups_eq.
  apply size_list_to_set, NoDup_remove_dups.
Qed.

(** C10: called with no songs the function returns [True] and neither
    builds nor runs a dialog; the songs are first made a set, so a list
    and the same list without its duplicates give the same answer and the
    same dialog, and the count shown is the number of distinct songs. *)
Theorem confirm_remove_tracks_empty_and_duplicates
    (C : Confirmer (Parent := Parent)) (parent : Parent)
    (songs : list Song) :
  invoke C parent [] = (true, [])
  ∧ invoke C parent (remove_dups songs) = invoke C parent songs
  ∧ (songs ≠ [] →
     ∃ song, song ∈ songs ∧
       let count := length (remove_dups songs) in
       let title :=
         percent_format
           (ngettext remove_track_singular remove_tracks_plural count)
           (str_or (song_call song "title") (song_call song "~basename"))
           count in
       let ok_text := gettext "Remove from Playlist" in
       invoke C parent songs =
         (bool_decide (Dialog_run C (Confirmer_new C parent title "" ok_text)
                       = RESPONSE_INVOKE C),
          [EvConfirmer parent title "" ok_text; EvRun])).
Proof.
  split; [|split].
  - unfold confirm_remove_playlist_tracks_dialog_invoke.
    by rewrite list_to_set_nil, elements_empty.
  - unfold confirm_remove_playlist_tracks_dialog_invoke.
    by rewrite list_to_set_remove_dups_eq.
  - intros Hne. unfold confirm_remove_playlist_tracks_dialog_invoke.
    rewrite size_set_of_songs.
    destruct (elements (list_to_set (C := gset Song) songs))
      as [|song others] eqn:E.
    + apply elements_empty_inv in E. destruct songs as [|s0 songs]; [done|].
      exfalso. apply (not_elem_of_empty (C := gset Song) s0).
      rewrite <- E. apply elem_of_list_to_set. left.
    + exists song. split; [|done].
      apply (elem_of_list_to_set (C := gset Song)), elem_of_elements.
      rewrite E. left.
Qed.

End ConfirmClaims.


(** ** The claims at work on the concrete platform *)

Lemma plain_entry_resolves_at_realpath_of_join_witness :
  uri_is_valid "song1.mp3" = false
  ∧ entry_song None "/music" "song1.mp3"
    = Some (Sample.File "/music/song1.mp3")
  ∧ ∀ e, e ∈ entry_calls None "/music" "song1.mp3" →
         e = EvLookup "/music/song1.mp3" ∨ e = EvProbe "/music/song1.mp3".
Proof.
  assert (uri_is_valid "song1.mp3" = false) as Hv by reflexivity.
  destruct (plain_entry_resolves_at_realpath_of_join (platform := Sample.uncancelled)
              "song1.mp3" None "/music" Hv) as (_ & Hcalls & Hsong).
  split; [exact Hv|]. split; [exact Hsong|exact Hcalls].
Defined.

Lemma unconvertible_uri_becomes_remote_track_witness :
  uri_is_valid "http://stream.example/x.mp3" = true
  ∧ uri2fsn "http://stream.example/x.mp3" = None
  ∧ import_entry "http://stream.example/x.mp3" (Some Sample.library) "/music"
    = (Ok (Some (Sample.Stream "http://stream.example/x.mp3")),
       [EvRemote "http://stream.example/x.mp3"]).
Proof.
  assert (uri_is_valid "http://stream.example/x.mp3" = true) as Hv
    by reflexivity.
  assert (uri2fsn "http://stream.example/x.mp3" = None) as Hconv
    by reflexivity.
  split; [exact Hv|]. split; [exact Hconv|].
  exact (proj1 (unconvertible_uri_becomes_remote_track (platform := Sample.uncancelled)
                  "http://stream.example/x.mp3" (Some Sample.library)
                  "/music" Hv Hconv)).
Defined.

Lemma local_path_track_resolution_witness :
  Sample.library !! "/music/song1.mp3" = Some (Sample.Known "/music/song1.mp3")
  ∧ _af_for "song1.mp3" (Some Sample.library) "/music"
    = (Ok (Some (Sample.Known "/music/song1.mp3")),
       [EvLookup "/music/song1.mp3"])
  ∧ Sample.library !! "/music/missing.mp3" = None
  ∧ ∃ calls,
      _af_for "missing.mp3" (Some Sample.library) "/music" = (Ok None, calls)
      ∧ (calls = [EvProbe "/music/missing.mp3"]
         ∨ calls = [EvLookup "/music/missing.mp3";
                    EvProbe "/music/missing.mp3"]).
Proof.
  assert (Sample.library !! "/music/song1.mp3"
          = Some (Sample.Known "/music/song1.mp3")) as Hhit
    by apply lookup_singleton_eq.
  assert (Sample.library !! "/music/missing.mp3" = None) as Hmiss
    by (by apply lookup_singleton_ne).
  split; [exact Hhit|]. split.
  - exact (proj1 (local_path_track_resolution (platform := Sample.uncancelled)
                    "song1.mp3" (Some Sample.library) "/music")
             Sample.library _ eq_refl Hhit).
  - split; [exact Hmiss|].
    apply (proj2 (local_path_track_resolution (platform := Sample.uncancelled)
                    "missing.mp3" (Some Sample.library) "/music")).
    intros lib Hlib. injection Hlib as <-. exact Hmiss.
Defined.

Lemma file_uri_resolves_like_plain_path_witness :
  uri_is_valid "file:///music/song2.mp3" = true
  ∧ uri2fsn "file:///music/song2.mp3" = Some "/music/song2.mp3"
  ∧ uri_is_valid "/music/song2.mp3" = false
  ∧ entry_song None "/elsewhere" "file:///music/song2.mp3"
    = entry_song None "/elsewhere" "/music/song2.mp3".
Proof.
  assert (uri_is_valid "file:///music/song2.mp3" = true) as Hv
    by reflexivity.
  assert (uri2fsn "file:///music/song2.mp3" = Some "/music/song2.mp3")
    as Hconv by reflexivity.
  assert (uri_is_valid "/music/song2.mp3" = false) as Hplain by reflexivity.
  split; [exact Hv|]. split; [exact Hconv|]. split; [exact Hplain|].
  exact (proj1 (proj2 (proj2 (file_uri_resolves_like_plain_path (platform := Sample.uncancelled)
    "file:///music/song2.mp3" "/music/song2.mp3" None "/elsewhere"
    Hv Hconv Hplain)))).
Defined.

Lemma progress_ticks_and_cancellation_witness :
  let files : list (fsn (Platform := Sample.stopped_at_second)) :=
    ["song1.mp3"; "missing.mp3"; "http://stream.example/x.mp3"] in
  let win := WaitLoadWindow_new (Platform := Sample.stopped_at_second) 3 in
  1 < length files
  ∧ stop_answer win 1 = true
  ∧ (∀ j, j < 1 → stop_answer win j = false)
  ∧ ∃ playlist log,
      __create_playlist (platform := Sample.stopped_at_second)
        "list" "/music" files None = (Ok playlist, log)
      ∧ ticks log = 2
      ∧ length (pl_songs playlist) ≤ 2.
Proof.
  intros files win.
  assert (1 < length files) as Hn by (simpl; lia).
  assert (stop_answer win 1 = true) as Hstop by reflexivity.
  assert (∀ j, j < 1 → stop_answer win j = false) as Hbefore.
  { intros [|j] Hj; [reflexivity|lia]. }
  split; [exact Hn|]. split; [exact Hstop|]. split; [exact Hbefore|].
  destruct (progress_ticks_and_cancellation
              (platform := Sample.stopped_at_second)
              "list" "/music" files None)
    as (playlist & log & Hrun & _ & _ & Hcancel).
  destruct (Hcancel 1 Hn Hstop Hbefore) as (_ & Hticks & _ & Hlen).
  exists playlist, log. split; [exact Hrun|]. split; [exact Hticks|exact Hlen].
Defined.

Lemma confirm_remove_tracks_empty_and_duplicates_witness :
  ["b"; "b"] ≠ @nil string
  ∧ ∃ song, song ∈ ["b"; "b"] ∧
      (confirm_remove_playlist_tracks_dialog_invoke
         Sample.song_call id (λ s p n, if decide (n = 1) then s else p)
         (λ t title count, t +:+ "/" +:+ title +:+ "/" +:+ pretty count)
         Sample.confirmer () ["b"; "b"]).2
      = [EvConfirmer ()
           (remove_track_singular +:+ "/" +:+ song +:+ "/1") ""
           "Remove from Playlist"; EvRun].
Proof.
  assert (["b"; "b"] ≠ @nil string) as Hne by done.
  split; [exact Hne|].
  destruct (proj2 (proj2 (confirm_remove_tracks_empty_and_duplicates
    Sample.song_call id (λ s p n, if decide (n = 1) then s else p)
    (λ t title count, t +:+ "/" +:+ title +:+ "/" +:+ pretty count)
    Sample.confirmer () ["b"; "b"])) Hne) as (song & Hin & Hrun).
  exists song. split; [exact Hin|].
  rewrite Hrun. cbn [snd].
  apply list_elem_of_In in Hin. destruct Hin as [<-|[<-|[]]]; reflexivity.
Defined.

(** * Further properties of the import *)

(** ** Whitespace and the two line formats *)

Section LineFormats.

Context {platform : Platform}.
Import Bytes.

Lemma lstrip_blank_app ws l : is_blank ws → lstrip (ws ++ l) = lstrip l.
Proof.
  induction ws as [|b ws IH]; intros Hws; [done|]. simpl.
  rewrite (Hws b) by left. apply IH. intros c Hc. apply Hws. by right.
Qed.

Lemma rstrip_app_blank l ws : is_blank ws → rstrip (l ++ ws) = rstrip l.
Proof.
  intros Hws. unfold rstrip. rewrite rev_app_distr.
  rewrite lstrip_blank_app; [done|].
  intros b Hb. apply Hws. by rewrite list_elem_of_In, in_rev, <- list_elem_of_In.
Qed.

Lemma strip_padded w1 l w2 :
  is_blank w1 → is_blank w2 → strip (w1 ++ l ++ w2) = strip l.
Proof.
  intros H1 H2. unfold strip. rewrite lstrip_blank_app by done.
  by rewrite <- !lstrip_rstrip, rstrip_app_blank.
Qed.

Lemma m3u_lines_same_strip lines1 lines2 acc :
  Forall2 (λ a b, strip a = strip b) lines1 lines2 →
  m3u_lines lines1 acc = m3u_lines lines2 acc.
Proof.
  intros HF. revert acc. induction HF as [|a b l1 l2 Hab _ IH]; intros acc;
    [done|].
  cbn [m3u_lines]. rewrite Hab.
  destruct (startswith (strip b) (B "#")); apply IH.
Qed.

Lemma pls_lines_same_strip lines1 lines2 acc :
  Forall2 (λ a b, strip a = strip b) lines1 lines2 →
  pls_lines lines1 acc = pls_lines lines2 acc.
Proof.
  intros HF. revert acc. induction HF as [|a b l1 l2 Hab _ IH]; intros acc;
    [done|].
  cbn [pls_lines]. rewrite Hab.
  destruct (startswith (lower (strip b)) (B "file")); cbn [negb]; [|apply IH].
  destruct (index (strip b) "="%byte); [apply IH|done].
Qed.

(** X1: whitespace added before or after the lines of a playlist file (a
    carriage return before the line feed, indentation, trailing blanks)
    changes nothing: both parsers return the same playlist and make the
    same calls as on the unpadded lines. *)
Theorem padding_lines_changes_nothing
    (name : option string) (padded lines : list bytes)
    (pl_name : string) (library : option Library) :
  Forall2 (λ a b, ∃ w1 w2, is_blank w1 ∧ is_blank w2 ∧ a = w1 ++ b ++ w2)
          padded lines →
  parse_m3u {| fl_name := name; fl_lines := padded |} pl_name library
    = parse_m3u {| fl_name := name; fl_lines := lines |} pl_name library
  ∧ parse_pls {| fl_name := name; fl_lines := padded |} pl_name library
    = parse_pls {| fl_name := name; fl_lines := lines |} pl_name library.
Proof.
  intros HF.
  assert (Forall2 (λ a b, strip a = strip b) padded lines) as Hs.
  { eapply Forall2_impl; [exact HF|]. intros a b (w1 & w2 & H1 & H2 & ->).
    by apply strip_padded. }
  unfold parse_m3u, parse_pls, _dir_for. cbn [fl_lines fl_name]. split.
  - by rewrite (m3u_lines_same_strip _ _ _ Hs).
  - by rewrite (pls_lines_same_strip _ _ _ Hs).
Qed.

Lemma after_byte_spec (c : byte) l : c ∈ l → after_first c l (after_byte c l).
Proof.
  induction l as [|b r IH]; intros Hin; [by apply elem_of_nil in Hin|].
  simpl. destruct (decide (b = c)) as [->|Hne].
  - exists []. split; [done|apply not_elem_of_nil].
  - apply elem_of_cons in Hin as [->|Hin]; [done|].
    destruct (IH Hin) as (pre & Hr & Hpre). exists (b :: pre). split.
    + simpl. by rewrite <- Hr.
    + rewrite not_elem_of_cons. split; [congruence|done].
Qed.

Lemma pls_candidate_file_line line :
  pls_candidate line = true ↔ is_file_line line.
Proof. apply startswith_file. Qed.

Lemma attempt_add_app fn acc :
  __attempt_add fn acc = acc ++ omap bytes2fsn [fn].
Proof.
  unfold __attempt_add. csimpl.
  destruct (bytes2fsn fn); [done|by rewrite app_nil_r].
Qed.

(** The two outcomes of the line loop of [parse_pls]. *)
Lemma pls_lines_outcome lines acc :
  ((∀ line, line ∈ lines → is_file_line line → "="%byte ∈ line)
   ∧ pls_lines lines acc = (Ok (acc ++ pls_entries lines), []))
  ∨ ((∃ line, line ∈ lines ∧ is_file_line line ∧ "="%byte ∉ line)
     ∧ pls_lines lines acc = (Raise ValueError, [])).
Proof.
  revert acc. induction lines as [|line rest IH]; intros acc.
  - left. split; [by intros line Hin; apply elem_of_nil in Hin|].
    unfold pls_entries. simpl. by rewrite app_nil_r.
  - destruct (pls_candidate line) eqn:Hc.
    + assert (is_file_line line) as Hf by (by apply pls_candidate_file_line).
      destruct (decide ("="%byte ∈ line)) as [Heq|Hno].
      * rewrite (pls_lines_entry _ _ rest acc Hf (after_byte_spec _ _ Heq)).
        destruct (IH (__attempt_add (strip (after_byte "="%byte line)) acc))
          as [[Hall ->]|[(bad & Hin & Hbf & Hbno) ->]].
        -- left. split.
           ++ intros l [->|Hl]%elem_of_cons; [done|by apply Hall].
           ++ unfold pls_entries. rewrite filter_cons, decide_True by done.
              rewrite fmap_cons, attempt_add_app. csimpl.
              destruct (bytes2fsn _); csimpl; by rewrite <- ?app_assoc.
        -- right. split; [|done]. exists bad. split; [by right|done].
      * right. split; [exists line; split; [left|done]|].
        by apply pls_lines_raise.
    + assert (¬ is_file_line line) as Hf
        by (rewrite <- pls_candidate_file_line; congruence).
      rewrite (pls_lines_skip _ rest acc Hf).
      destruct (IH acc) as [[Hall ->]|[(bad & Hin & Hbf & Hbno) ->]].
      * left. split.
        -- intros l [->|Hl]%elem_of_cons; [done|by apply Hall].
        -- unfold pls_entries. rewrite filter_cons, decide_False; [done|].
           congruence.
      * right. split; [|done]. exists bad. split; [by right|done].
Qed.

End LineFormats.

(** ** The outcome of a PLS parse, and PLS against M3U *)

Section PlsOutcome.

Context {platform : Platform}.
Import Bytes.

(** X2: [parse_pls] has two outcomes.  If some line with the [file]
    prefix has no [=], it raises [ValueError] and nothing has happened yet:
    no window was shown, no library or file was consulted.  Otherwise it
    returns a playlist, made of the tracks of the entries that follow the
    first [=] of each [file] line, in the order of the lines. *)
Theorem parse_pls_raises_or_returns
    (f : filelike) (pl_name : string) (library : option Library) :
  ((∃ line, line ∈ fl_lines f ∧ is_file_line line ∧ "="%byte ∉ line)
   ∧ parse_pls f pl_name library = (Raise ValueError, []))
  ∨ ((∀ line, line ∈ fl_lines f → is_file_line line → "="%byte ∈ line)
     ∧ ∃ playlist log,
         let files := pls_entries (fl_lines f) in
         let k := processed (length files)
                    (WaitLoadWindow_new (length files)) in
         parse_pls f pl_name library = (Ok playlist, log)
         ∧ pl_songs playlist
           = omap (entry_song library (_dir_for f)) (take k files)).
Proof.
  unfold parse_pls.
  destruct (pls_lines_outcome (fl_lines f) []) as [[Hall ->]|[Hbad ->]].
  - right. split; [done|]. rewrite app_nil_l.
    unfold mbind, M_bind. rewrite create_playlist_run.
    eexists _, _. split; [done|done].
  - left. by split.
Qed.

(** X3: a PLS stream whose lines are [File<n>=<entry>] gives the same
    result as the M3U stream of the entries, when none of the entries is an
    M3U comment. *)
Theorem pls_of_entries_is_m3u_of_entries
    (name : option string) (pls m3u : list bytes)
    (pl_name : string) (library : option Library) :
  Forall2 (λ pl ml, ∃ n, ("="%byte ∉ n) ∧ pl = B "File" ++ n ++ "="%byte :: ml)
          pls m3u →
  Forall (λ ml, m3u_candidate ml = true) m3u →
  parse_pls {| fl_name := name; fl_lines := pls |} pl_name library
  = parse_m3u {| fl_name := name; fl_lines := m3u |} pl_name library.
Proof.
  intros HF Hcand.
  assert (∀ acc, pls_lines pls acc = (Ok (m3u_lines m3u acc), [])) as Hl.
  { induction HF as [|pl ml pls m3u (n & Hn & ->) _ IH]; intros acc; [done|].
    apply Forall_cons in Hcand as [Hml Hcand].
    assert (is_file_line (B "File" ++ n ++ "="%byte :: ml)) as Hf.
    { exists (B "File"), (n ++ "="%byte :: rstrip ml). split; [|done].
      rewrite app_assoc, strip_around by done.
      change (lstrip (B "File" ++ n)) with (B "File" ++ n).
      by rewrite <- app_assoc. }
    assert (after_first "="%byte (B "File" ++ n ++ "="%byte :: ml) ml)
      as Hpost.
    { exists (B "File" ++ n). split; [by rewrite <- app_assoc|].
      rewrite elem_of_app. intros [Hin|Hin]; [|done].
      revert Hin. compute_done. }
    rewrite (pls_lines_entry _ _ _ _ Hf Hpost), (IH Hcand).
    cbn [m3u_lines]. unfold m3u_candidate in Hml.
    by destruct (startswith (strip ml) (B "#")). }
  unfold parse_pls, parse_m3u, _dir_for. cbn [fl_lines fl_name].
  rewrite Hl. unfold mbind, M_bind.
  by destruct (__create_playlist _ _ _ _) as [r l].
Qed.

(** X4: a stream without entries (empty, or comments only for M3U, no
    [file] line for PLS) gives an empty playlist; the progress window is
    shown and destroyed and nothing else is called. *)
Theorem no_entry_gives_empty_playlist
    (f : filelike) (pl_name : string) (library : option Library) :
  ((∀ line, line ∈ fl_lines f → m3u_candidate line = false) →
   parse_m3u f pl_name library
   = (Ok {| pl_name := pl_name; pl_library := library; pl_songs := [] |},
      [EvShow; EvDestroy]))
  ∧ ((∀ line, line ∈ fl_lines f → ¬ is_file_line line) →
     parse_pls f pl_name library
     = (Ok {| pl_name := pl_name; pl_library := library; pl_songs := [] |},
        [EvShow; EvDestroy])).
Proof.
  split; intros Hnone.
  - unfold parse_m3u. rewrite m3u_lines_entries. unfold m3u_entries.
    replace (filter (λ l, m3u_candidate l = true) (fl_lines f)) with
      (@nil bytes); [by rewrite create_playlist_run|].
    symmetry. induction (fl_lines f) as [|line rest IH]; [done|].
    rewrite filter_cons, decide_False.
    + apply IH. intros l Hl. apply Hnone. by right.
    + rewrite Hnone by left. done.
  - unfold parse_pls.
    destruct (pls_lines_outcome (fl_lines f) [])
      as [[_ ->]|[(bad & Hin & Hbf & _) _]]; [|by destruct (Hnone bad Hin)].
    unfold pls_entries.
    replace (filter (λ l, pls_candidate l = true) (fl_lines f)) with
      (@nil bytes).
    + unfold mbind, M_bind. by rewrite create_playlist_run.
    + symmetry. induction (fl_lines f) as [|line rest IH]; [done|].
      rewrite filter_cons, decide_False.
      * apply IH. intros l Hl. apply Hnone. by right.
      * rewrite pls_candidate_file_line. apply Hnone. left.
Qed.

End PlsOutcome.

(** ** Bounds and invariants of the assembly *)

Section AssemblyExtras.

Context {platform : Platform}.

Lemma ticks_create_log library source_dir handled :
  ticks (EvShow :: loop_calls library source_dir handled ++ [EvDestroy])
  = length handled.
Proof.
  change (EvShow :: ?l) with ([EvShow] ++ l).
  rewrite !ticks_app, ticks_loop_calls.
  rewrite !ticks_none; [lia| |];
    rewrite not_elem_of_cons; (split; [done|apply not_elem_of_nil]).
Qed.

Lemma length_filter_le_lines lines :
  length (m3u_entries m3u_candidate lines) ≤ length lines.
Proof.
  unfold m3u_entries. rewrite length_omap_filter.
  etrans; [apply length_filter|]. rewrite length_fmap. apply length_filter.
Qed.

(** X5: in every M3U import the playlist has at most as many tracks as
    the window was stepped, the window is stepped at most as many times as
    the total it was created with (the number of entries), and there are
    at most as many entries as lines. *)
Theorem m3u_import_bounds
    (f : filelike) (pl_name : string) (library : option Library) :
  let files := m3u_lines (fl_lines f) [] in
  ∃ playlist log,
    parse_m3u f pl_name library = (Ok playlist, log)
    ∧ length (pl_songs playlist) ≤ ticks log
    ∧ ticks log ≤ length files
    ∧ length files ≤ length (fl_lines f).
Proof.
  intros files. unfold parse_m3u. fold files.
  rewrite create_playlist_run. eexists _, _. split; [done|].
  rewrite ticks_create_log. cbn [pl_songs]. split; [|split].
  - rewrite length_omap_filter. apply length_filter.
  - rewrite length_take. lia.
  - unfold files. rewrite m3u_lines_entries. apply length_filter_le_lines.
Qed.

(** X6: the stop request is looked at only after an entry has been
    handled, so an import with at least one entry always handles the first
    one: its calls are made, the window is stepped, and its track, if there
    is one, is the first of the playlist. *)
Theorem first_entry_is_always_handled
    (name : string) (source_dir : fsn) (filename : fsn) (rest : list fsn)
    (library : option Library) :
  ∃ playlist more,
    __create_playlist name source_dir (filename :: rest) library
    = (Ok playlist,
       EvShow :: entry_calls library source_dir filename ++ EvStep :: more)
    ∧ ∀ t, entry_song library source_dir filename = Some t →
           ∃ others, pl_songs playlist = t :: others.
Proof.
  rewrite create_playlist_run. cbn [length processed].
  destruct (WaitLoadWindow_step _) as [[] win'].
  - eexists _, [EvDestroy]. split.
    + unfold loop_calls. csimpl. by rewrite app_nil_r, <- app_assoc.
    + intros t Ht. csimpl. rewrite Ht. by eexists.
  - eexists _, (loop_calls library source_dir
                  (take (processed (length rest) win') rest) ++ [EvDestroy]).
    split.
    + unfold loop_calls. csimpl. by rewrite <- !app_assoc.
    + intros t Ht. csimpl. rewrite Ht. by eexists.
Qed.

Lemma elem_of_loop_calls library source_dir handled e :
  e ∈ loop_calls library source_dir handled →
  e = EvStep ∨ ∃ f, f ∈ handled ∧ e ∈ entry_calls library source_dir f.
Proof.
  unfold loop_calls. induction handled as [|f rest IH]; csimpl.
  - by intros ?%elem_of_nil.
  - rewrite !elem_of_app, list_elem_of_singleton.
    intros [[Hin | ->] | Hin]; [right|by left|].
    + exists f. split; [left|done].
    + destruct (IH Hin) as [->|(g & Hg & He)]; [by left|right].
      exists g. split; [by right|done].
Qed.

Lemma af_for_with_library filename (lib : Library) pl_dir :
  let p := os_path_realpath (os_path_join pl_dir filename) in
  (∀ t, lib !! p = Some t →
        _af_for filename (Some lib) pl_dir = (Ok (Some t), [EvLookup p]))
  ∧ (lib !! p = None →
     (_af_for filename (Some lib) pl_dir).1 = Ok (MusicFile p)).
Proof.
  intros p. split.
  - intros t Ht. rewrite af_for_cases. fold p.
    by rewrite (Library_bool_lookup _ _ _ Ht), Ht.
  - intros Hn. rewrite af_for_cases. fold p. rewrite Hn.
    by destruct (Library_bool lib).
Qed.

Lemma entry_calls_cases library source_dir f e :
  e ∈ entry_calls library source_dir f →
  match entry_path f with
  | Some q =>
      let p := os_path_realpath (os_path_join source_dir q) in
      e = EvLookup p ∨ e = EvProbe p
  | None => e = EvRemote f
  end.
Proof.
  unfold entry_calls, entry_path. rewrite import_entry_unfold.
  destruct (uri_is_valid f); [destruct (uri2fsn f) as [q|]|].
  - apply af_for_calls.
  - simpl. by intros ->%list_elem_of_singleton.
  - apply af_for_calls.
Qed.

(** X7: whatever the file list, the library and the disk are consulted
    only at canonical paths of its local entries (the realpath of the join
    of the source directory and the entry, or the path of its URI), and a
    remote track is built only for an entry that is a URI without a local
    path. *)
Theorem calls_are_at_canonical_paths_of_entries
    (name : string) (source_dir : fsn) (files : list fsn)
    (library : option Library) :
  ∃ playlist log,
    __create_playlist name source_dir files library = (Ok playlist, log)
    ∧ ∀ e, e ∈ log →
        match e with
        | EvLookup p | EvProbe p =>
            ∃ f q, f ∈ files ∧ entry_path f = Some q
                   ∧ p = os_path_realpath (os_path_join source_dir q)
        | EvRemote u => u ∈ files ∧ entry_path u = None
        | EvShow | EvStep | EvDestroy => True
        end.
Proof.
  rewrite create_playlist_run. eexists _, _. split; [done|].
  intros e [-> | He]%elem_of_cons; [done|].
  apply elem_of_app in He as [He | ->%list_elem_of_singleton]; [|done].
  apply elem_of_loop_calls in He as [-> | (f & Hf & He)]; [done|].
  assert (f ∈ files) as Hin.
  { rewrite <- (take_drop (processed (length files)
                    (WaitLoadWindow_new (length files))) files).
    apply elem_of_app. by left. }
  apply entry_calls_cases in He.
  destruct (entry_path f) as [q|] eqn:Hq.
  - destruct He as [-> | ->]; by exists f, q.
  - subst e. by split.
Qed.

(** X8: when every local entry of the file list is in the library, the
    import never probes a file, and every entry it handles gives a track:
    the playlist is as long as the number of steps of the window. *)
Theorem library_only_import_never_probes
    (name : string) (source_dir : fsn) (files : list fsn) (lib : Library) :
  (∀ f q, f ∈ files → entry_path f = Some q →
          is_Some (lib !! os_path_realpath (os_path_join source_dir q))) →
  ∃ playlist log,
    __create_playlist name source_dir files (Some lib) = (Ok playlist, log)
    ∧ (∀ e, e ∈ log → ¬ is_probe e)
    ∧ length (pl_songs playlist) = ticks log.
Proof.
  intros Hlib.
  assert (∀ f, f ∈ files →
            is_Some (entry_song (Some lib) source_dir f)
            ∧ ∀ e, e ∈ entry_calls (Some lib) source_dir f → ¬ is_probe e)
    as Hentry.
  { intros f Hf. specialize (Hlib f). unfold entry_path in Hlib.
    unfold entry_song, entry_calls. rewrite import_entry_unfold.
    destruct (uri_is_valid f); [destruct (uri2fsn f) as [q|]|].
    - destruct (Hlib q Hf eq_refl) as [t Ht].
      rewrite (proj1 (af_for_with_library q lib source_dir) t Ht).
      split; [by eexists|]. simpl.
      intros e ->%list_elem_of_singleton. simpl. tauto.
    - split; [by eexists|]. simpl.
      intros e ->%list_elem_of_singleton. simpl. tauto.
    - destruct (Hlib f Hf eq_refl) as [t Ht].
      rewrite (proj1 (af_for_with_library f lib source_dir) t Ht).
      split; [by eexists|]. simpl.
      intros e ->%list_elem_of_singleton. simpl. tauto. }
  rewrite create_playlist_run. eexists _, _. split; [done|].
  set (k := processed (length files) (WaitLoadWindow_new (length files))).
  assert (∀ f, f ∈ take k files → f ∈ files) as Hsub.
  { intros f Hf. rewrite <- (take_drop k files). apply elem_of_app. by left. }
  split.
  - intros e [-> | He]%elem_of_cons; [simpl; tauto|].
    apply elem_of_app in He as [He | ->%list_elem_of_singleton];
      [|simpl; tauto].
    apply elem_of_loop_calls in He as [-> | (f & Hf & He)]; [simpl; tauto|].
    by apply (proj2 (Hentry f (Hsub f Hf))).
  - rewrite ticks_create_log. cbn [pl_songs].
    rewrite length_omap_filter. f_equal.
    induction (take k files) as [|f h IH]; [done|].
    rewrite filter_cons, decide_True.
    + f_equal. apply IH. intros g Hg. apply Hsub. by right.
    + apply Hentry, Hsub. left.
Qed.

End AssemblyExtras.

(** * Properties of [show_files] *)

Section ShowFilesFacts.

Import ShowFiles.
Context {desktop : Desktop}.

Lemma bare_names_forallb entries :
  forallb (λ e, bool_decide (path_basename e = e)) entries = true
  ↔ bare_names entries.
Proof.
  unfold bare_names. rewrite forallb_forall, Forall_forall.
  split; intros Hall e He; specialize (Hall e);
    rewrite <- list_elem_of_In in *.
  - by apply (bool_decide_eq_true_1 _), Hall.
  - by apply (bool_decide_eq_true_2 _), Hall.
Qed.

Ltac run_backend :=
  unfold try_except, call_checked, mbind, D_bind, mret, D_ret, external,
    throw, _get_startup_id;
  repeat case_match; simplify_eq;
  repeat match goal with u : () |- _ => destruct u end; eauto.

Lemma fdo_settles dirname entries : settles (_show_files_fdo dirname entries).
Proof. intros w. unfold _show_files_fdo. run_backend. Qed.

Lemma thunar_settles dirname entries :
  settles (_show_files_thunar dirname entries).
Proof. intros w. unfold _show_files_thunar. run_backend. Qed.

Lemma xdg_open_settles dirname entries :
  settles (_show_files_xdg_open dirname entries).
Proof. intros w. unfold _show_files_xdg_open. run_backend. Qed.

Lemma gnome_open_settles dirname entries :
  settles (_show_files_gnome_open dirname entries).
Proof. intros w. unfold _show_files_gnome_open. run_backend. Qed.

Lemma win32_settles dirname entries :
  settles (_show_files_win32 dirname entries).
Proof. intros w. unfold _show_files_win32. run_backend. Qed.

Lemma try_implementations_returns impls dirname entries w :
  Forall (λ impl, settles (impl dirname entries)) impls →
  ∃ b w' l, try_implementations impls dirname entries w = (Return b, w', l).
Proof.
  intros Hall. revert w. induction Hall as [|impl rest Hs _ IH]; intros w.
  - by eexists _, _, _.
  - cbn [try_implementations].
    destruct (Hs w) as (w' & l & [-> | ->]); [by eexists _, _, _|].
    destruct (IH w') as (b & w'' & l' & ->). by eexists _, _, _.
Qed.

(** X9: where the back end is not the Finder one, [show_files] checks its
    entries before anything else: if one of them is not a bare name it
    raises [AssertionError] and no call has left the program; otherwise it
    returns a boolean, and no [BrowseError], [DBusException] or [OSError]
    of a back end reaches the caller. *)
Theorem show_files_raises_only_on_bad_entries
    (dirname : path) (entries : list path) (w : World) :
  is_windows = true ∨ is_osx = false →
  (bare_names entries
   ∧ ∃ b w' l, show_files dirname entries w = (Return b, w', l))
  ∨ (¬ bare_names entries
     ∧ show_files dirname entries w = (Throw AssertionError, w, [])).
Proof.
  intros Hos. unfold show_files.
  destruct (forallb _ entries) eqn:Hb; cbn [negb].
  - left. split; [by apply bare_names_forallb|].
    apply try_implementations_returns.
    destruct Hos as [-> | ->].
    + repeat constructor. apply win32_settles.
    + destruct is_windows; repeat constructor;
        auto using win32_settles, fdo_settles, thunar_settles,
          xdg_open_settles, gnome_open_settles.
  - right. split; [|done].
    rewrite <- bare_names_forallb. congruence.
Qed.

Lemma try_implementations_ext impls dirname entries entries' :
  Forall (λ impl, ∀ w, impl dirname entries w = impl dirname entries' w)
         impls →
  ∀ w, try_implementations impls dirname entries w
       = try_implementations impls dirname entries' w.
Proof.
  induction 1 as [|impl rest Himpl _ IH]; intros w; [done|].
  cbn [try_implementations]. rewrite Himpl.
  destruct (impl dirname entries' w) as [[[u|[]] w'] l]; try done.
  by rewrite IH.
Qed.

(** X10: of the entries only the first can reach a file manager: with
    bare names, [show_files] does and answers the same on the whole list as
    on its first element alone, on every platform. *)
Theorem only_the_first_entry_matters
    (dirname : path) (entries : list path) (w : World) :
  bare_names entries →
  show_files dirname entries w = show_files dirname (take 1 entries) w.
Proof.
  intros Hbare. unfold show_files.
  assert (bare_names (take 1 entries)) as Hbare1
    by (by apply Forall_take).
  apply bare_names_forallb in Hbare, Hbare1. rewrite Hbare, Hbare1.
  cbn [negb]. apply try_implementations_ext.
  destruct is_windows; [|destruct is_osx]; repeat constructor;
    intros w0; by destruct entries.
Qed.

(** X11: on Windows, when entries are given, the folder is opened through
    [open_folder_and_select_items] with an empty list of items: the names
    of the entries are not handed over, and the answer is whether that one
    call succeeded. *)
Theorem windows_selects_no_item
    (dirname : path) (entries : list path) (w : World) :
  is_windows = true → bare_names entries → entries ≠ [] →
  show_files dirname entries w =
    let dirname := path_abspath dirname in
    let '(r, w') := open_folder_and_select_items dirname [] w in
    (Return (match r with Some _ => true | None => false end), w',
     [CallSelectItems dirname []]).
Proof.
  intros Hwin Hbare Hne. unfold show_files.
  apply bare_names_forallb in Hbare. rewrite Hbare, Hwin. cbn [negb].
  destruct entries as [|e rest]; [done|].
  cbn [try_implementations]. unfold _show_files_win32. rewrite Hwin.
  cbn [negb]. unfold try_except, external, throw.
  by destruct (open_folder_and_select_items _ _ w) as [[[]|] w'].
Qed.

(** X12: on a Linux desktop without the dbus module the two dbus back
    ends make no call; [xdg-open] is run on the absolute directory, and
    [gnome-open] is run only if [xdg-open] could not be run or exited with
    a status other than 0; the answer is whether the last one run exited
    with 0. *)
Theorem without_dbus_xdg_open_then_gnome_open
    (dirname : path) (entries : list path) (w : World) :
  is_windows = false → is_osx = false → dbus = false →
  bare_names entries →
  show_files dirname entries w =
    let dirname := path_abspath dirname in
    let xdg := [Word "xdg-open"; Path dirname] in
    let gnome := [Word "gnome-open"; Path dirname] in
    let '(r1, w1) := subprocess_call xdg w in
    if bool_decide (r1 = Some 0%Z)
    then (Return true, w1, [CallSubprocess xdg])
    else
      let '(r2, w2) := subprocess_call gnome w1 in
      (Return (bool_decide (r2 = Some 0%Z)), w2,
       [CallSubprocess xdg; CallSubprocess gnome]).
Proof.
  intros Hwin Hosx Hdbus Hbare. unfold show_files.
  apply bare_names_forallb in Hbare. rewrite Hbare, Hwin, Hosx. cbn [negb].
  cbn [try_implementations].
  unfold _show_files_fdo, _show_files_thunar. rewrite Hdbus. cbn [negb].
  unfold _show_files_xdg_open, _show_files_gnome_open, try_except,
    call_checked, mbind, D_bind, mret, D_ret, external, throw.
  cbn.
  destruct (subprocess_call _ w) as [[z1|] w1]; cbn;
    repeat case_bool_decide; simplify_eq; rewrite ?decide_True by done;
    cbn; try done;
    destruct (subprocess_call _ w1) as [[z2|] w2]; cbn;
    repeat case_bool_decide; simplify_eq; rewrite ?decide_True by done;
    cbn; done.
Qed.

Lemma subprocess_backend_log argv w :
  ∃ w', try_except OSError (call_checked argv) (throw BrowseError) w
          = (Return (), w', [CallSubprocess argv])
        ∨ try_except OSError (call_checked argv) (throw BrowseError) w
          = (Throw BrowseError, w', [CallSubprocess argv]).
Proof.
  unfold try_except, call_checked, mbind, D_bind, mret, D_ret, external, throw.
  destruct (subprocess_call argv w) as [[z|] w']; cbn;
    repeat case_bool_decide; simplify_eq; rewrite ?decide_True by done;
    cbn; eauto.
Qed.

(** X13: on Linux [show_files] answers [False] only when all four back
    ends were tried: [xdg-open] was run, and the last call made is the run
    of [gnome-open]. *)
Theorem false_only_after_gnome_open
    (dirname : path) (entries : list path) (w w' : World)
    (l : list (call path)) :
  is_windows = false → is_osx = false →
  show_files dirname entries w = (Return false, w', l) →
  let dirname := path_abspath dirname in
  ∃ before,
    l = before ++ [CallSubprocess [Word "gnome-open"; Path dirname]]
    ∧ CallSubprocess [Word "xdg-open"; Path dirname] ∈ before.
Proof.
  intros Hwin Hosx. unfold show_files. rewrite Hwin, Hosx.
  destruct (forallb _ entries); cbn [negb]; [|done].
  cbn [try_implementations].
  destruct (fdo_settles (path_abspath dirname) entries w)
    as (w1 & l1 & [-> | ->]); [done|].
  destruct (thunar_settles (path_abspath dirname) entries w1)
    as (w2 & l2 & [-> | ->]); [done|].
  unfold _show_files_xdg_open, _show_files_gnome_open.
  destruct (subprocess_backend_log
              [Word "xdg-open"; Path (path_abspath dirname)] w2)
    as (w3 & [-> | ->]); [done|].
  destruct (subprocess_backend_log
              [Word "gnome-open"; Path (path_abspath dirname)] w3)
    as (w4 & [-> | ->]); [done|].
  cbn. intros [= <- <-].
  exists (l1 ++ l2 ++ [CallSubprocess
                         [Word "xdg-open"; Path (path_abspath dirname)]]).
  split; [by rewrite <- !app_assoc|].
  rewrite !elem_of_app, list_elem_of_singleton. auto.
Qed.

Ltac check_calls :=
  unfold try_except, call_checked, mbind, D_bind, mret, D_ret, external,
    throw, _get_startup_id;
  intros w r w' l Hrun; repeat case_match; simplify_eq;
  repeat (apply Forall_app; split); repeat constructor; simpl; eauto;
  intros p; rewrite !elem_of_cons, elem_of_nil; intuition congruence.

Lemma fdo_only_about dirname entries :
  only_about dirname entries (_show_files_fdo dirname entries).
Proof. unfold only_about, _show_files_fdo. check_calls. Qed.

Lemma thunar_only_about dirname entries :
  only_about dirname entries (_show_files_thunar dirname entries).
Proof. unfold only_about, _show_files_thunar. check_calls. Qed.

Lemma xdg_open_only_about dirname entries :
  only_about dirname entries (_show_files_xdg_open dirname entries).
Proof. unfold only_about, _show_files_xdg_open. check_calls. Qed.

Lemma gnome_open_only_about dirname entries :
  only_about dirname entries (_show_files_gnome_open dirname entries).
Proof. unfold only_about, _show_files_gnome_open. check_calls. Qed.

Lemma win32_only_about dirname entries :
  only_about dirname entries (_show_files_win32 dirname entries).
Proof. unfold only_about, _show_files_win32. check_calls. Qed.

Lemma try_implementations_only_about impls dirname entries w r w' l :
  Forall (λ impl, only_about dirname entries (impl dirname entries)) impls →
  try_implementations impls dirname entries w = (r, w', l) →
  Forall (call_about dirname entries) l.
Proof.
  intros Hall. revert w r w' l.
  induction Hall as [|impl rest Himpl _ IH]; intros w r w' l.
  - by intros [= <- <- <-].
  - cbn [try_implementations].
    destruct (impl dirname entries w) as [[a w1] l1] eqn:E.
    apply Himpl in E.
    destruct a as [u|[]]; try (by intros [= <- <- <-]).
    destruct (try_implementations rest dirname entries w1)
      as [[r2 w2] l2] eqn:E2.
    apply IH in E2. intros [= <- <- <-]. by apply Forall_app.
Qed.

(** X14: where the back end is not the Finder one, every call
    [show_files] makes is about the absolute path of the directory, and of
    the entries it mentions the first one at most: a program is started
    with that directory as its only path, a D-Bus method gets the URI of
    the directory or of the first entry joined to it. *)
Theorem every_call_is_about_the_absolute_directory
    (dirname : path) (entries : list path) (w w' : World)
    (r : answer bool) (l : list (call path)) :
  is_windows = true ∨ is_osx = false →
  show_files dirname entries w = (r, w', l) →
  Forall (call_about (path_abspath dirname) entries) l.
Proof.
  intros Hos. unfold show_files.
  destruct (forallb _ entries); cbn [negb]; [|by intros [= <- <- <-]].
  apply try_implementations_only_about.
  destruct Hos as [-> | ->].
  - repeat constructor. apply win32_only_about.
  - destruct is_windows; repeat constructor;
      auto using win32_only_about, fdo_only_about, thunar_only_about,
        xdg_open_only_about, gnome_open_only_about.
Qed.

End ShowFilesFacts.

(** ** The further properties at work *)

Lemma padding_lines_changes_nothing_witness :
  Forall2 (λ a b, ∃ w1 w2, is_blank w1 ∧ is_blank w2 ∧ a = w1 ++ b ++ w2)
          [[x09] ++ B "song1.mp3" ++ [x0d; x0a]] [B "song1.mp3"]
  ∧ parse_m3u {| fl_name := Some "/music/list.m3u";
                 fl_lines := [[x09] ++ B "song1.mp3" ++ [x0d; x0a]] |}
              "list" None
    = parse_m3u {| fl_name := Some "/music/list.m3u";
                   fl_lines := [B "song1.mp3"] |} "list" None.
Proof.
  assert (∀ ws : bytes, forallb Bytes.is_space ws = true → is_blank ws)
    as Hblank.
  { intros ws Hws b Hb. rewrite forallb_forall in Hws. apply Hws.
    by apply list_elem_of_In. }
  assert (Forall2
            (λ a b, ∃ w1 w2, is_blank w1 ∧ is_blank w2 ∧ a = w1 ++ b ++ w2)
            [[x09] ++ B "song1.mp3" ++ [x0d; x0a]] [B "song1.mp3"]) as HF.
  { repeat constructor. exists [x09], [x0d; x0a].
    split; [by apply Hblank|]. split; [by apply Hblank|done]. }
  split; [exact HF|].
  exact (proj1 (padding_lines_changes_nothing
                  (Some "/music/list.m3u") _ _ "list" None HF)).
Defined.

Lemma pls_of_entries_is_m3u_of_entries_witness :
  Forall2 (λ pl ml, ∃ n, ("="%byte ∉ n) ∧ pl = B "File" ++ n ++ "="%byte :: ml)
          [B "File1=song1.mp3"; B "File2=missing.mp3"]
          [B "song1.mp3"; B "missing.mp3"]
  ∧ Forall (λ ml, m3u_candidate ml = true) [B "song1.mp3"; B "missing.mp3"]
  ∧ parse_pls {| fl_name := Some "/music/list.pls";
                 fl_lines := [B "File1=song1.mp3"; B "File2=missing.mp3"] |}
              "list" None
    = parse_m3u {| fl_name := Some "/music/list.pls";
                   fl_lines := [B "song1.mp3"; B "missing.mp3"] |}
                "list" None.
Proof.
  assert (Forall2
            (λ pl ml, ∃ n, ("="%byte ∉ n)
                           ∧ pl = B "File" ++ n ++ "="%byte :: ml)
            [B "File1=song1.mp3"; B "File2=missing.mp3"]
            [B "song1.mp3"; B "missing.mp3"]) as HF.
  { constructor; [exists (B "1"); split; [compute_done|done]|].
    constructor; [exists (B "2"); split; [compute_done|done]|].
    constructor. }
  assert (Forall (λ ml, m3u_candidate ml = true)
            [B "song1.mp3"; B "missing.mp3"]) as Hc
    by (by repeat constructor).
  split; [exact HF|]. split; [exact Hc|].
  exact (pls_of_entries_is_m3u_of_entries
           (Some "/music/list.pls") _ _ "list" None HF Hc).
Defined.

Lemma no_entry_gives_empty_playlist_witness :
  (∀ line, line ∈ [B "#EXTM3U"; B "  # a comment"] →
           m3u_candidate line = false)
  ∧ parse_m3u {| fl_name := None;
                 fl_lines := [B "#EXTM3U"; B "  # a comment"] |} "list" None
    = (Ok {| pl_name := "list"; pl_library := None; pl_songs := [] |},
       [EvShow; EvDestroy])
  ∧ (∀ line, line ∈ [B "[playlist]"; B "Title1=File"] → ¬ is_file_line line)
  ∧ parse_pls {| fl_name := None;
                 fl_lines := [B "[playlist]"; B "Title1=File"] |} "list" None
    = (Ok {| pl_name := "list"; pl_library := None; pl_songs := [] |},
       [EvShow; EvDestroy]).
Proof.
  assert (∀ line, line ∈ [B "#EXTM3U"; B "  # a comment"] →
                  m3u_candidate line = false) as Hm.
  { intros line Hin. apply list_elem_of_In in Hin.
    destruct Hin as [<- | [<- | []]]; reflexivity. }
  assert (∀ line, line ∈ [B "[playlist]"; B "Title1=File"] →
                  ¬ is_file_line line) as Hp.
  { intros line Hin. rewrite <- startswith_file.
    apply list_elem_of_In in Hin.
    destruct Hin as [<- | [<- | []]]; vm_compute; discriminate. }
  split; [exact Hm|]. split.
  - exact (proj1 (no_entry_gives_empty_playlist
                    {| fl_name := None;
                       fl_lines := [B "#EXTM3U"; B "  # a comment"] |}
                    "list" None) Hm).
  - split; [exact Hp|].
    exact (proj2 (no_entry_gives_empty_playlist
                    {| fl_name := None;
                       fl_lines := [B "[playlist]"; B "Title1=File"] |}
                    "list" None) Hp).
Defined.

Lemma library_only_import_never_probes_witness :
  let files : list (fsn (Platform := Sample.uncancelled)) :=
    ["song1.mp3"; "http://stream.example/x.mp3"] in
  (∀ f q, f ∈ files → entry_path f = Some q →
          is_Some (Sample.library
                     !! os_path_realpath (os_path_join "/music" q)))
  ∧ ∃ playlist log,
      __create_playlist "list" "/music" files (Some Sample.library)
      = (Ok playlist, log)
      ∧ (∀ e, e ∈ log → ¬ is_probe e)
      ∧ length (pl_songs playlist) = ticks log.
Proof.
  intros files.
  assert (∀ f q, f ∈ files → entry_path f = Some q →
            is_Some (Sample.library
                       !! os_path_realpath (os_path_join "/music" q)))
    as Hlib.
  { intros f q Hin. apply list_elem_of_In in Hin.
    destruct Hin as [<- | [<- | []]]; intros [= <-].
    exists (Sample.Known "/music/song1.mp3"). apply lookup_singleton_eq. }
  split; [exact Hlib|].
  exact (library_only_import_never_probes
           (platform := Sample.uncancelled)
           "list" "/music" files Sample.library Hlib).
Defined.

Lemma show_files_raises_only_on_bad_entries_witness :
  (ShowFiles.is_windows (Desktop := ShowFiles.linux_without_dbus 1 0) = true
   ∨ ShowFiles.is_osx (Desktop := ShowFiles.linux_without_dbus 1 0) = false)
  ∧ ((ShowFiles.bare_names (desktop := ShowFiles.linux_without_dbus 1 0)
        ["a/b"]
      ∧ ∃ b w' l,
          ShowFiles.show_files (desktop := ShowFiles.linux_without_dbus 1 0)
            "music" ["a/b"] 0 = (ShowFiles.Return b, w', l))
     ∨ (¬ ShowFiles.bare_names (desktop := ShowFiles.linux_without_dbus 1 0)
            ["a/b"]
        ∧ ShowFiles.show_files (desktop := ShowFiles.linux_without_dbus 1 0)
            "music" ["a/b"] 0
          = (ShowFiles.Throw ShowFiles.AssertionError, 0, []))).
Proof.
  assert (ShowFiles.is_windows
            (Desktop := ShowFiles.linux_without_dbus 1 0) = true
          ∨ ShowFiles.is_osx
              (Desktop := ShowFiles.linux_without_dbus 1 0) = false) as Hos
    by (by right).
  split; [exact Hos|].
  exact (show_files_raises_only_on_bad_entries
           (desktop := ShowFiles.linux_without_dbus 1 0)
           "music" ["a/b"] 0 Hos).
Defined.

Lemma only_the_first_entry_matters_witness :
  ShowFiles.bare_names (desktop := ShowFiles.linux_without_dbus 1 0)
    ["a.mp3"; "b.mp3"]
  ∧ ShowFiles.show_files (desktop := ShowFiles.linux_without_dbus 1 0)
      "music" ["a.mp3"; "b.mp3"] 0
    = ShowFiles.show_files (desktop := ShowFiles.linux_without_dbus 1 0)
        "music" ["a.mp3"] 0.
Proof.
  assert (ShowFiles.bare_names (desktop := ShowFiles.linux_without_dbus 1 0)
            ["a.mp3"; "b.mp3"]) as Hbare by (by repeat constructor).
  split; [exact Hbare|].
  exact (only_the_first_entry_matters
           (desktop := ShowFiles.linux_without_dbus 1 0)
           "music" ["a.mp3"; "b.mp3"] 0 Hbare).
Defined.

Lemma windows_selects_no_item_witness :
  ShowFiles.is_windows (Desktop := ShowFiles.windows) = true
  ∧ ShowFiles.bare_names (desktop := ShowFiles.windows) ["a.mp3"]
  ∧ ["a.mp3"] ≠ @nil string
  ∧ ShowFiles.show_files (desktop := ShowFiles.windows) "C:\music" ["a.mp3"] 0
    = (ShowFiles.Return true, 1, [ShowFiles.CallSelectItems "C:\music" []]).
Proof.
  assert (ShowFiles.bare_names (desktop := ShowFiles.windows) ["a.mp3"])
    as Hbare by (by repeat constructor).
  assert (["a.mp3"] ≠ @nil string) as Hne by done.
  split; [reflexivity|]. split; [exact Hbare|]. split; [exact Hne|].
  exact (windows_selects_no_item (desktop := ShowFiles.windows)
           "C:\music" ["a.mp3"] 0 eq_refl Hbare Hne).
Defined.

Lemma without_dbus_xdg_open_then_gnome_open_witness :
  ShowFiles.bare_names (desktop := ShowFiles.linux_without_dbus 1 0) ["a.mp3"]
  ∧ ShowFiles.show_files (desktop := ShowFiles.linux_without_dbus 1 0)
      "music" ["a.mp3"] 0
    = (ShowFiles.Return true, 2,
       [ShowFiles.CallSubprocess
          [ShowFiles.Word "xdg-open"; ShowFiles.Path "/music"];
        ShowFiles.CallSubprocess
          [ShowFiles.Word "gnome-open"; ShowFiles.Path "/music"]]).
Proof.
  assert (ShowFiles.bare_names (desktop := ShowFiles.linux_without_dbus 1 0)
            ["a.mp3"]) as Hbare by (by repeat constructor).
  split; [exact Hbare|].
  exact (without_dbus_xdg_open_then_gnome_open
           (desktop := ShowFiles.linux_without_dbus 1 0)
           "music" ["a.mp3"] 0 eq_refl eq_refl eq_refl Hbare).
Defined.

Lemma false_only_after_gnome_open_witness :
  ShowFiles.show_files (desktop := ShowFiles.linux_without_dbus 3 4)
    "music" [] 0
  = (ShowFiles.Return false, 2,
     [ShowFiles.CallSubprocess
        [ShowFiles.Word "xdg-open"; ShowFiles.Path "/music"];
      ShowFiles.CallSubprocess
        [ShowFiles.Word "gnome-open"; ShowFiles.Path "/music"]])
  ∧ ∃ before,
      [ShowFiles.CallSubprocess
         [ShowFiles.Word "xdg-open"; ShowFiles.Path "/music"];
       ShowFiles.CallSubprocess
         [ShowFiles.Word "gnome-open"; ShowFiles.Path "/music"]]
      = before ++ [ShowFiles.CallSubprocess
                     [ShowFiles.Word "gnome-open"; ShowFiles.Path "/music"]]
      ∧ ShowFiles.CallSubprocess
          [ShowFiles.Word "xdg-open"; ShowFiles.Path "/music"] ∈ before.
Proof.
  assert (ShowFiles.show_files (desktop := ShowFiles.linux_without_dbus 3 4)
            "music" [] 0
          = (ShowFiles.Return false, 2,
             [ShowFiles.CallSubprocess
                [ShowFiles.Word "xdg-open"; ShowFiles.Path "/music"];
              ShowFiles.CallSubprocess
                [ShowFiles.Word "gnome-open"; ShowFiles.Path "/music"]]))
    as Hrun by reflexivity.
  split; [exact Hrun|].
  exact (false_only_after_gnome_open
           (desktop := ShowFiles.linux_without_dbus 3 4)
           "music" [] 0 2 _ eq_refl eq_refl Hrun).
Defined.

Lemma every_call_is_about_the_absolute_directory_witness :
  (ShowFiles.is_windows (Desktop := ShowFiles.linux_without_dbus 1 0) = true
   ∨ ShowFiles.is_osx (Desktop := ShowFiles.linux_without_dbus 1 0) = false)
  ∧ ShowFiles.show_files (desktop := ShowFiles.linux_without_dbus 1 0)
      "music" ["a.mp3"; "b.mp3"] 0
    = (ShowFiles.Return true, 2,
       [ShowFiles.CallSubprocess
          [ShowFiles.Word "xdg-open"; ShowFiles.Path "/music"];
        ShowFiles.CallSubprocess
          [ShowFiles.Word "gnome-open"; ShowFiles.Path "/music"]])
  ∧ Forall (ShowFiles.call_about
              (desktop := ShowFiles.linux_without_dbus 1 0)
              "/music" ["a.mp3"; "b.mp3"])
      [ShowFiles.CallSubprocess
         [ShowFiles.Word "xdg-open"; ShowFiles.Path "/music"];
       ShowFiles.CallSubprocess
         [ShowFiles.Word "gnome-open"; ShowFiles.Path "/music"]].
Proof.
  assert (ShowFiles.is_windows
            (Desktop := ShowFiles.linux_without_dbus 1 0) = true
          ∨ ShowFiles.is_osx
              (Desktop := ShowFiles.linux_without_dbus 1 0) = false) as Hos
    by (by right).
  assert (ShowFiles.show_files (desktop := ShowFiles.linux_without_dbus 1 0)
            "music" ["a.mp3"; "b.mp3"] 0
          = (ShowFiles.Return true, 2,
             [ShowFiles.CallSubprocess
                [ShowFiles.Word "xdg-open"; ShowFiles.Path "/music"];
              ShowFiles.CallSubprocess
                [ShowFiles.Word "gnome-open"; ShowFiles.Path "/music"]]))
    as Hrun by reflexivity.
  split; [exact Hos|]. split; [exact Hrun|].
  exact (every_call_is_about_the_absolute_directory
           (desktop := ShowFiles.linux_without_dbus 1 0)
           "music" ["a.mp3"; "b.mp3"] 0 2 _ _ Hos Hrun).
Defined.
